(** * Video upload handler: a shallow embedding and its properties

    The development embeds [handler_upload_video.go] (the video ingestion
    handler, the metadata probe, the remux step and the presigning helper)
    together with [getExtension] from the thumbnail handler's file.

    - 64-bit floats are Rocq's primitive binary64 floats, so the epsilon
      comparisons of [getVideoAspectRatio] are evaluated bit for bit;
    - the collaborators that live outside the embedded files (database
      client, object store, operating system, external tools, HTTP library)
      are fields of an environment record [Env], one value per request;
    - the handler is written in a small monad that threads the world (database,
      disk, object store), the list of external calls, the response writer
      and the stack of deferred calls, with early [return] and panics. *)

From Stdlib Require Import ZArith QArith Qabs Floats String Ascii List Lia Bool.
From Stdlib.Strings Require Import Byte.
From stdpp Require Import gmap strings.

Local Open Scope string_scope.
Local Open Scope Z_scope.

(** ** Go values *)

(** A Go [error] value; only its presence matters to the handler. *)
Definition error := string.

(** A call that returns [(T, error)]. *)
Inductive Result (A : Type) : Type :=
| Ok (a : A)
| Err (e : error).
Arguments Ok {A} a.
Arguments Err {A} e.

(** ** The metadata probe: aspect-ratio classification *)

Module Float64.

(** [float64(n)] for an [int]: the integer rounded to the nearest binary64
    value, ties to even. *)
Definition of_int (n : Z) : float :=
  SF2Prim (binary_normalize prec emax n 0 false).

(** The typed constants of [getVideoAspectRatio].  Go evaluates the constant
    expressions [16.0/9.0] and [9.0/16.0] exactly and rounds once; a
    correctly rounded division of the exact operands is the same value. *)
Definition c_16_9 : float := (16 / 9)%float.
Definition c_9_16 : float := (9 / 16)%float.
(** [0.001] rounded to binary64. *)
Definition epsilon : float := 0x1.0624dd2f1a9fcp-10%float.

(** [math.Abs(ratio - c) < 0.001] *)
Definition near (ratio c : float) : bool :=
  (abs (ratio - c) <? epsilon)%float.

End Float64.

(** One entry of the [streams] array of ffprobe's JSON output.  The fields are
    Go [int]s; a stream without the keys (an audio stream) decodes to zeros,
    and a number that does not fit makes the decoding fail. *)
Record Stream := { Width : Z; Height : Z }.

(** The anonymous struct [ffprobeStream] that the output is decoded into. *)
Record ffprobeStream := { Streams : list Stream }.

(** [ratio := float64(width) / float64(height)] *)
Definition ratio (width height : Z) : float :=
  (Float64.of_int width / Float64.of_int height)%float.

(** The if/else-if/else chain at the end of [getVideoAspectRatio]. *)
Definition classify (width height : Z) : string :=
  let ratio := ratio width height in
  if Float64.near ratio Float64.c_16_9 then "landscape"
  else if Float64.near ratio Float64.c_9_16 then "portrait"
  else "other".

(** The tolerance test as the interface description words it, on the exact
    quotient [width / height]; it is compared with [classify] below. *)
Definition exact_near (width height : Z) (c : Q) : Prop :=
  (Qabs (inject_Z width / inject_Z height - c) < 1 # 1000)%Q.

(** ** Library functions the handler calls on strings and bytes *)

(** [encoding/base64], the [RawURLEncoding] encoder (URL alphabet, no
    padding character). *)
Module Base64.

(** [encodeURL], the alphabet table of the URL encoding. *)
Definition encodeURL : string :=
  "ABCDEFGHIJKLMNOPQRSTUVWXYZabcdefghijklmnopqrstuvwxyz0123456789-_".

(** [enc.encode[i]] *)
Definition encode (i : N) : ascii :=
  nth (N.to_nat i) (list_ascii_of_string encodeURL) "A"%char.

(** [Encode]: three source bytes give four characters; a remainder of one
    or two bytes gives two or three characters and, the encoding being a
    raw one, no padding. *)
Fixpoint Encode (src : list Byte.byte) : list ascii :=
  match src with
  | b0 :: b1 :: b2 :: rest =>
      let val := N.lor (N.lor (N.shiftl (Byte.to_N b0) 16) (N.shiftl (Byte.to_N b1) 8))
                       (Byte.to_N b2) in
      encode (N.land (N.shiftr val 18) 63) :: encode (N.land (N.shiftr val 12) 63)
        :: encode (N.land (N.shiftr val 6) 63) :: encode (N.land val 63) :: Encode rest
  | [b0; b1] =>
      let val := N.lor (N.shiftl (Byte.to_N b0) 16) (N.shiftl (Byte.to_N b1) 8) in
      [encode (N.land (N.shiftr val 18) 63); encode (N.land (N.shiftr val 12) 63);
       encode (N.land (N.shiftr val 6) 63)]
  | [b0] =>
      let val := N.shiftl (Byte.to_N b0) 16 in
      [encode (N.land (N.shiftr val 18) 63); encode (N.land (N.shiftr val 12) 63)]
  | [] => []
  end.

Definition EncodeToString (src : list Byte.byte) : string :=
  string_of_list_ascii (Encode src).

(** [EncodedLen] of an unpadded encoding. *)
Definition EncodedLen (n : nat) : nat := (n / 3 * 4 + (n mod 3 * 8 + 5) / 6)%nat.

(** The characters that need no escaping in a URL path or query: letters,
    digits, [-] and [_]. *)
Definition url_safe (c : ascii) : bool :=
  let n := N_of_ascii c in
  ((65 <=? n) && (n <=? 90) || (97 <=? n) && (n <=? 122) || (48 <=? n) && (n <=? 57)
   || (n =? 45) || (n =? 95))%N.

End Base64.

(** [strings.Split(s, sep)] for a separator of one character, as at its call
    site: every occurrence of the separator cuts. *)
Fixpoint strings_Split (s : string) (sep : ascii) : list string :=
  match s with
  | EmptyString => [""]
  | String c s' =>
      if Ascii.eqb c sep then "" :: strings_Split s' sep
      else match strings_Split s' sep with
           | hd :: tl => String c hd :: tl
           | [] => [String c ""]
           end
  end.

(** Whether a character occurs in a string. *)
Fixpoint has_char (c : ascii) (s : string) : bool :=
  match s with
  | EmptyString => false
  | String c' s' => Ascii.eqb c' c || has_char c s'
  end.

(** [getExtension], from the thumbnail handler's file. *)
Definition getExtension (contentType : string) : string :=
  if String.eqb contentType "image/jpeg" then "jpg"
  else if String.eqb contentType "image/png" then "png"
  else if String.eqb contentType "image/gif" then "gif"
  else if String.eqb contentType "image/webp" then "webp"
  else "bin".

(** ** Records, requests, responses *)

(** [uuid.UUID], sixteen bytes read as a number. *)
Definition UUID := N.

(** Modelled from the spec: [database.Video], declared in the database
    package; the fields are those of the spec's Video Asset Record (identifier,
    owning user, optional thumbnail and playback location references). *)
Record Video := {
  ID : UUID;
  UserID : UUID;
  ThumbnailURL : option string;
  VideoURL : option string
}.

Definition set_VideoURL (video : Video) (url : option string) : Video :=
  {| ID := ID video; UserID := UserID video;
     ThumbnailURL := ThumbnailURL video; VideoURL := url |}.

(** The status constants of [net/http] that the handler responds with, and
    the one for a body that is too large. *)
Definition StatusOK : Z := 200.
Definition StatusBadRequest : Z := 400.
Definition StatusUnauthorized : Z := 401.
Definition StatusNotFound : Z := 404.
Definition StatusInternalServerError : Z := 500.

Inductive Payload : Type :=
| ErrorBody (msg : string)
| VideoBody (video : Video).

(** What was written to the [http.ResponseWriter]. *)
Record Response := { StatusCode : Z; Body : Payload }.

(** One file part of a multipart form: its field name, the [Content-Type]
    header of the part and its bytes. *)
Record Part := {
  FormName : string;
  PartContentType : string;
  Content : list Byte.byte
}.

(** The request body: the number of bytes the multipart reader has to consume,
    the limit installed by [http.MaxBytesReader] if any, and what parsing the
    whole body yields. *)
Record RequestBody := {
  Length : Z;
  Limit : option Z;
  Parts : Result (list Part)
}.

Record Request := {
  PathValue_videoID : string;
  Header : list (string * string);
  ReqBody : RequestBody
}.

(** [http.MaxBytesReader(w, body, n)] *)
Definition http_MaxBytesReader (body : RequestBody) (n : Z) : RequestBody :=
  {| Length := Length body; Limit := Some n; Parts := Parts body |}.

Definition set_Body (r : Request) (body : RequestBody) : Request :=
  {| PathValue_videoID := PathValue_videoID r; Header := Header r; ReqBody := body |}.

(** [r.FormFile(key)]: the form is parsed by reading the body to its end;
    a read past the limit fails; otherwise the first part named [key]. *)
Definition FormFile (r : Request) (key : string) : Result Part :=
  let body := ReqBody r in
  let too_large := match Limit body with Some n => n <? Length body | None => false end in
  if too_large then Err "http: request body too large"
  else match Parts body with
       | Err e => Err e
       | Ok parts =>
           match find (fun p => String.eqb (FormName p) key) parts with
           | Some p => Ok p
           | None => Err "http: no such file"
           end
       end.

(** ** The world outside the handler *)

(** A stored object: [Body] and [ContentType] of [s3.PutObjectInput]. *)
Record Object := { ObjectBody : list Byte.byte; ObjectContentType : string }.

(** The database table of videos (rows in order), the files on disk by path,
    and the object store by bucket and key. *)
Record World := {
  db : list Video;
  disk : gmap string (list Byte.byte);
  s3 : gmap (string * string) Object
}.

Definition set_db (w : World) (rows : list Video) : World :=
  {| db := rows; disk := disk w; s3 := s3 w |}.
Definition set_disk (w : World) (d : gmap string (list Byte.byte)) : World :=
  {| db := db w; disk := d; s3 := s3 w |}.
Definition set_s3 (w : World) (o : gmap (string * string) Object) : World :=
  {| db := db w; disk := disk w; s3 := o |}.

(** The calls that leave the process or touch the file system, in order. *)
Inductive Call : Type :=
| CallGetVideo (id : UUID)
| CallCreateTemp (name : string)
| CallCopy (name : string)
| CallSeek (name : string)
| CallFfmpeg (input output : string)
| CallOpen (name : string)
| CallFfprobe (path : string)
| CallPutObject (bucket key : string)
| CallUpdateVideo (video : Video)
| CallPresign (bucket key : string) (expires : Z)
| CallRemove (name : string).

(** What one run of the remuxing tool does: the bytes it left at its output
    path, if it created the file, and its exit status. *)
Record FfmpegRun := { ffmpeg_output : option (list Byte.byte); ffmpeg_err : option error }.

(** The standard output of the probing tool, as [json.Unmarshal] reads it. *)
Inductive ProbeStdout : Type :=
| BadJSON (e : error)
| GoodJSON (v : ffprobeStream).

Definition json_Unmarshal (out : ProbeStdout) : Result ffprobeStream :=
  match out with
  | BadJSON e => Err e
  | GoodJSON v => Ok v
  end.

(** [cfg *apiConfig]: the fields the handler reads besides the clients. *)
Record apiConfig := { jwtSecret : string; s3Bucket : string }.

(** The collaborators of one request: the libraries whose code is not part of
    the embedded files, and the outcome of each interaction with the operating
    system, the external tools, the object store and the database. *)
Record Env := {
  uuid_Parse : string -> Result UUID;
  auth_GetBearerToken : list (string * string) -> Result string;
  auth_ValidateJWT : string -> string -> Result UUID;
  mime_ParseMediaType : string -> Result string;
  (** [os.CreateTemp("", pattern)]: the name of the created file *)
  os_CreateTemp : string -> Result string;
  (** [io.Copy]: bytes written, and the error if the copy stopped early *)
  io_Copy : nat * option error;
  file_Seek : option error;
  ffmpeg_Run : FfmpegRun;
  os_Open : option error;
  ffprobe_Run : Result ProbeStdout;
  (** [crypto/rand.Read]: the i-th byte delivered *)
  rand_Read : nat -> Byte.byte;
  s3_PutObject : option error;
  db_UpdateVideo : option error;
  (** [PresignGetObject] with [WithPresignExpires] *)
  s3_PresignGetObject : string -> string -> Z -> Result string
}.

(** [time.Minute], in nanoseconds. *)
Definition time_Minute : Z := 60 * 1000000000.

(** ** The handler monad *)

(** A deferred call, with its argument evaluated when [defer] ran. *)
Inductive Deferred : Type :=
| DeferRemove (name : string)
| DeferClose (file : string).

(** The state one run of the handler threads: the world, the calls made so
    far, the response written so far and the stack of deferred calls. *)
Record HState := {
  world : World;
  calls : list Call;
  written : option Response;
  deferred : list Deferred
}.

Definition set_world (s : HState) (w : World) : HState :=
  {| world := w; calls := calls s; written := written s; deferred := deferred s |}.
Definition log_call (s : HState) (c : Call) : HState :=
  {| world := world s; calls := calls s ++ [c]; written := written s; deferred := deferred s |}.

(** How a statement ends: it falls through with a value, the function
    returns, or a run-time panic unwinds it. *)
Inductive Step (A : Type) : Type :=
| Next (a : A)
| Return
| Panic (msg : string).
Arguments Next {A} a.
Arguments Return {A}.
Arguments Panic {A} msg.

Definition Handler (A : Type) : Type := HState -> Step A * HState.

#[global] Instance Handler_ret : MRet Handler := fun A a s => (Next a, s).

#[global] Instance Handler_bind : MBind Handler := fun A B f m s =>
  match m s with
  | (Next a, s') => f a s'
  | (Return, s') => (Return, s')
  | (Panic msg, s') => (Panic msg, s')
  end.

(** [return] *)
Definition return_ {A} : Handler A := fun s => (Return, s).

(** A run-time panic. *)
Definition panic {A} (msg : string) : Handler A := fun s => (Panic msg, s).

(** [defer f(args)] *)
Definition defer (d : Deferred) : Handler unit := fun s =>
  (Next tt, {| world := world s; calls := calls s; written := written s;
               deferred := d :: deferred s |}).

(** Modelled from the spec: [respondWithError] and [respondWithJSON], declared
    in another file of the repository: the caller gets the status and a short
    message (or the record); the underlying error is only logged. *)
Definition respondWithError (code : Z) (msg : string) (err : option error) : Handler unit :=
  fun s => (Next tt, {| world := world s; calls := calls s;
                        written := Some {| StatusCode := code; Body := ErrorBody msg |};
                        deferred := deferred s |}).

Definition respondWithJSON (code : Z) (video : Video) : Handler unit :=
  fun s => (Next tt, {| world := world s; calls := calls s;
                        written := Some {| StatusCode := code; Body := VideoBody video |};
                        deferred := deferred s |}).

(** The idiom [if err != nil { respondWithError(w, code, msg, err); return }]. *)
Definition orFail {A} (res : Result A) (code : Z) (msg : string) : Handler A :=
  match res with
  | Ok a => mret a
  | Err err => respondWithError code msg (Some err) ;; return_
  end.

(** [l[i]], which panics out of range. *)
Definition index {A} (l : list A) (i : nat) : Handler A :=
  match nth_error l i with
  | Some a => mret a
  | None => panic "runtime error: index out of range"
  end.

(** [os.Remove(name)]; its error is not looked at anywhere. *)
Definition os_Remove (name : string) (s : HState) : HState :=
  log_call (set_world s (set_disk (world s) (delete name (disk (world s))))) (CallRemove name).

Definition run_deferred (s : HState) (d : Deferred) : HState :=
  match d with
  | DeferRemove name => os_Remove name s
  | DeferClose _ => s
  end.

(** What a request leaves behind once the handler has returned and its
    deferred calls have run, last deferred first. *)
Record Outcome := {
  response : option Response;
  panicked : bool;
  final : World;
  trace : list Call
}.

(** The state a handler starts in. *)
Definition start (w : World) : HState :=
  {| world := w; calls := []; written := None; deferred := [] |}.

(** The end of the function: the deferred calls run, last deferred first,
    whether the body returned or panicked. *)
Definition finish (end_ : Step unit * HState) : Outcome :=
  let s' := fold_left run_deferred (deferred (snd end_)) (snd end_) in
  {| response := written s';
     panicked := match fst end_ with Panic _ => true | _ => false end;
     final := world s';
     trace := calls s' |}.

Definition run (body : Handler unit) (w : World) : Outcome :=
  finish (body (start w)).

(** ** The embedded functions *)

Section Upload.

Variable cfg : apiConfig.
Variable env : Env.

(** Modelled from the spec: [cfg.db.GetVideo], declared in the database
    package: loads the record with this identifier, an error if absent. *)
Definition GetVideo (videoID : UUID) : Handler (Result Video) := fun s =>
  (Next match find (fun v => N.eqb (ID v) videoID) (db (world s)) with
        | Some video => Ok video
        | None => Err "sql: no rows in result set"
        end,
   log_call s (CallGetVideo videoID)).

(** Modelled from the spec: [cfg.db.UpdateVideo], declared in the database
    package: persists the record under its identifier; a failed update
    persists nothing. *)
Definition UpdateVideo (video : Video) : Handler (option error) := fun s =>
  let s := log_call s (CallUpdateVideo video) in
  match db_UpdateVideo env with
  | Some err => (Next (Some err), s)
  | None =>
      let rows := map (fun v => if N.eqb (ID v) (ID video) then video else v) (db (world s)) in
      (Next None, set_world s (set_db (world s) rows))
  end.

(** [os.CreateTemp("", pattern)] *)
Definition CreateTemp (pattern : string) : Handler (Result string) := fun s =>
  match os_CreateTemp env pattern with
  | Err err => (Next (Err err), s)
  | Ok name =>
      (Next (Ok name),
       log_call (set_world s (set_disk (world s) (<[name := []]> (disk (world s)))))
                (CallCreateTemp name))
  end.

(** [io.Copy(tempFile, formFile)] *)
Definition Copy (name : string) (src : list Byte.byte) : Handler (option error) := fun s =>
  let '(n, err) := io_Copy env in
  let data := match err with None => src | Some _ => firstn n src end in
  (Next err,
   log_call (set_world s (set_disk (world s) (<[name := data]> (disk (world s)))))
            (CallCopy name)).

(** [tempFile.Seek(0, io.SeekStart)] *)
Definition Seek (name : string) : Handler (option error) := fun s =>
  (Next (file_Seek env), log_call s (CallSeek name)).

(** [os.Open(name)] *)
Definition Open (name : string) : Handler (Result (list Byte.byte)) := fun s =>
  (Next match os_Open env with
        | Some err => Err err
        | None =>
            match disk (world s) !! name with
            | Some data => Ok data
            | None => Err "open: no such file or directory"
            end
        end,
   log_call s (CallOpen name)).

(** [cfg.s3Client.PutObject] *)
Definition PutObject (bucket key : string) (body : list Byte.byte) (contentType : string)
  : Handler (option error) := fun s =>
  let s := log_call s (CallPutObject bucket key) in
  match s3_PutObject env with
  | Some err => (Next (Some err), s)
  | None =>
      let obj := {| ObjectBody := body; ObjectContentType := contentType |} in
      (Next None, set_world s (set_s3 (world s) (<[(bucket, key) := obj]> (s3 (world s)))))
  end.

(** [processVideoForFastStart] *)
Definition processVideoForFastStart (filepath : string) : Handler (Result string) := fun s =>
  let output_path := filepath +:+ ".processing" in
  let s := log_call s (CallFfmpeg filepath output_path) in
  let s := match ffmpeg_output (ffmpeg_Run env) with
           | Some data =>
               set_world s (set_disk (world s) (<[output_path := data]> (disk (world s))))
           | None => s
           end in
  match ffmpeg_err (ffmpeg_Run env) with
  | Some err => (Next (Err err), s)
  | None => (Next (Ok output_path), s)
  end.

(** [getVideoAspectRatio] *)
Definition getVideoAspectRatio (filePath : string) : Handler (Result string) :=
  fun s0 =>
  let s := log_call s0 (CallFfprobe filePath) in
  match ffprobe_Run env with
  | Err err => (Next (Err err), s)
  | Ok stdout =>
      match json_Unmarshal stdout with
      | Err err => (Next (Err err), s)
      | Ok cmdResult =>
          (first ← index (Streams cmdResult) 0;
           let width := Width first in
           let height := Height first in
           mret (Ok (classify width height))) s
      end
  end.

(** [generatePresignedURL] *)
Definition generatePresignedURL (bucket key : string) (expireTime : Z)
  : Handler (Result string) := fun s =>
  (Next (s3_PresignGetObject env bucket key expireTime),
   log_call s (CallPresign bucket key expireTime)).

(** [dbVideoToSignedVideo] *)
Definition dbVideoToSignedVideo (video : Video) : Handler (Result Video) :=
  match VideoURL video with
  | None => mret (Ok video)
  | Some videoURL =>
      let params := strings_Split videoURL ","%char in
      bucket ← index params 0;
      key ← index params 1;
      res ← generatePresignedURL bucket key (10 * time_Minute);
      match res with
      | Err err => mret (Err err)
      | Ok url => mret (Ok (set_VideoURL video (Some url)))
      end
  end.

(** The 32 bytes [rand.Read] fills [randomBytes] with. *)
Definition randomBytes : list Byte.byte := map (rand_Read env) (seq 0 32).

(** [handlerUploadVideo], up to its return. *)
Definition handlerUploadVideo_body (r : Request) : Handler unit :=
  let videoIDString := PathValue_videoID r in
  videoID ← orFail (uuid_Parse env videoIDString) StatusBadRequest "Invalid ID";
  token ← orFail (auth_GetBearerToken env (Header r)) StatusUnauthorized "Couldn't find JWT";
  userID ← orFail (auth_ValidateJWT env token (jwtSecret cfg))
             StatusUnauthorized "Couldn't validate JWT";
  res ← GetVideo videoID;
  video ← orFail res StatusNotFound "Couldn't get video";
  (if negb (N.eqb (UserID video) userID)
   then respondWithError StatusUnauthorized "User not authorized to edit video" None ;; return_
   else mret tt) ;;
  (* fmt.Println(...) writes a line to standard output and nothing else *)
  let r := set_Body r (http_MaxBytesReader (ReqBody r) (Z.shiftl 1 30)) in
  formFile ← orFail (FormFile r "video") StatusBadRequest "Couldn't parse multipart form";
  defer (DeferClose "formFile") ;;
  let contentType := PartContentType formFile in
  mediaType ← orFail (mime_ParseMediaType env contentType)
                StatusBadRequest "Couldn't parse media type";
  (if negb (String.eqb mediaType "video/mp4")
   then respondWithError StatusBadRequest "Unsupported file type" None ;; return_
   else mret tt) ;;
  res ← CreateTemp "tubely-upload.mp4";
  tempFile ← orFail res StatusInternalServerError "Couldn't create temp file";
  defer (DeferRemove tempFile) ;;
  defer (DeferClose tempFile) ;;
  err ← Copy tempFile (Content formFile);
  orFail (match err with Some e => Err e | None => Ok tt end)
    StatusInternalServerError "Couldn't copy file" ;;
  err ← Seek tempFile;
  orFail (match err with Some e => Err e | None => Ok tt end)
    StatusInternalServerError "Couldn't seek file" ;;
  res ← processVideoForFastStart tempFile;
  fastStartTempFilepath ← orFail res StatusInternalServerError "Couldn't process video";
  res ← Open fastStartTempFilepath;
  fastTempFile ← orFail res StatusInternalServerError "Couldn't open fast start temp file";
  defer (DeferRemove fastStartTempFilepath) ;;
  defer (DeferClose fastStartTempFilepath) ;;
  res ← getVideoAspectRatio tempFile;
  aspectRatio ← orFail res StatusInternalServerError "Couldn't get video aspect ratio";
  let randomString := Base64.EncodeToString randomBytes in
  let extension := getExtension mediaType in
  let fileKey := aspectRatio +:+ "/" +:+ randomString +:+ "." +:+ extension in
  err ← PutObject (s3Bucket cfg) fileKey fastTempFile mediaType;
  orFail (match err with Some e => Err e | None => Ok tt end)
    StatusInternalServerError "Couldn't upload file" ;;
  let videoURL := s3Bucket cfg +:+ "," +:+ fileKey in
  let video := set_VideoURL video (Some videoURL) in
  err ← UpdateVideo video;
  orFail (match err with Some e => Err e | None => Ok tt end)
    StatusInternalServerError "Couldn't update video" ;;
  res ← dbVideoToSignedVideo video;
  signedVideo ← orFail res StatusInternalServerError "Couldn't sign video";
  respondWithJSON StatusOK signedVideo.

(** [handlerUploadVideo]: the body, then the deferred calls. *)
Definition handlerUploadVideo (r : Request) (w : World) : Outcome :=
  run (handlerUploadVideo_body r) w.

End Upload.

(** The derived object key: [fmt.Sprintf("%s/%s.%s", ...)] on the label of
    the first stream, the encoded random bytes and the extension looked up for
    [video/mp4]. *)
Definition derived_key (env : Env) (first : Stream) : string :=
  classify (Width first) (Height first) +:+ "/" +:+
  Base64.EncodeToString (randomBytes env) +:+ "." +:+ getExtension "video/mp4".

(** ** A concrete deployment, used to run the handler on examples *)

Module Demo.

Definition cfg : apiConfig := {| jwtSecret := "secret"; s3Bucket := "tubely" |}.

Definition alice : UUID := 1%N.
Definition bob : UUID := 2%N.

(** One video, owned by alice, not yet uploaded. *)
Definition video7 : Video :=
  {| ID := 7%N; UserID := alice; ThumbnailURL := None; VideoURL := None |}.

Definition world : World := {| db := [video7]; disk := ∅; s3 := ∅ |}.

Definition hd_1080p : ProbeStdout :=
  GoodJSON {| Streams := [{| Width := 1920; Height := 1080 |}] |}.

(** An environment in which every library call behaves and the interactions
    named by the arguments end as given. *)
Definition env (ffmpeg : FfmpegRun) (open : option error) (probe : Result ProbeStdout)
    (put update : option error) (presign : Result string) : Env :=
  {| uuid_Parse := fun s => if String.eqb s "7" then Ok 7%N else Err "invalid UUID length";
     auth_GetBearerToken := fun h =>
       match find (fun kv => String.eqb (fst kv) "Authorization") h with
       | Some kv => Ok (snd kv)
       | None => Err "no auth header included in request"
       end;
     auth_ValidateJWT := fun token _ =>
       if String.eqb token "Bearer alice" then Ok alice
       else if String.eqb token "Bearer bob" then Ok bob
       else Err "invalid token";
     mime_ParseMediaType := fun v =>
       if String.eqb v "" then Err "mime: no media type" else Ok v;
     os_CreateTemp := fun pattern => Ok ("/tmp/" +:+ pattern +:+ "2058201");
     io_Copy := (3%nat, None);
     file_Seek := None;
     ffmpeg_Run := ffmpeg;
     os_Open := open;
     ffprobe_Run := probe;
     rand_Read := fun i => match Byte.of_nat i with Some b => b | None => Byte.x00 end;
     s3_PutObject := put;
     db_UpdateVideo := update;
     s3_PresignGetObject := fun bucket key expires =>
       match presign with
       | Ok base => Ok (base +:+ bucket +:+ "/" +:+ key)
       | Err e => Err e
       end |}.

Definition remuxed : FfmpegRun :=
  {| ffmpeg_output := Some ["m"%byte; "p"%byte; "4"%byte]; ffmpeg_err := None |}.

(** Everything succeeds. *)
Definition env_ok : Env :=
  env remuxed None (Ok hd_1080p) None None (Ok "https://signed.example/").

Definition upload (token : string) (mediaType : string) (size : Z) : Request :=
  {| PathValue_videoID := "7";
     Header := [("Authorization", token)];
     ReqBody := {| Length := size; Limit := None;
                   Parts := Ok [{| FormName := "video"; PartContentType := mediaType;
                                   Content := ["r"%byte; "a"%byte; "w"%byte] |}] |} |}.

(** The owner uploads a small MP4. *)
Definition request : Request := upload "Bearer alice" "video/mp4" 4096.

(** Another authenticated user uploads to alice's video. *)
Definition request_by_bob : Request := upload "Bearer bob" "video/mp4" 4096.

(** The owner uploads a part declared as a PNG image. *)
Definition request_png : Request := upload "Bearer alice" "image/png" 4096.


(** The object store refuses the upload. *)
Definition env_put_fails : Env :=
  env remuxed None (Ok hd_1080p) (Some "s3: service unavailable") None
    (Ok "https://signed.example/").

(** The record update fails after the object was stored. *)
Definition env_update_fails : Env :=
  env remuxed None (Ok hd_1080p) None (Some "database is locked")
    (Ok "https://signed.example/").

(** Presigning fails after the record was updated. *)
Definition env_sign_fails : Env :=
  env remuxed None (Ok hd_1080p) None None (Err "failed to retrieve credentials").

(** The remux succeeds and opening its output fails. *)
Definition env_open_fails : Env :=
  env remuxed (Some "open: too many open files") (Ok hd_1080p) None None
    (Ok "https://signed.example/").

(** The remuxing tool exits with an error after it created its output. *)
Definition env_remux_fails : Env :=
  env {| ffmpeg_output := Some ["m"%byte]; ffmpeg_err := Some "exit status 1" |}
    None (Ok hd_1080p) None None (Ok "https://signed.example/").

(** The probing tool succeeds and reports no stream. *)
Definition env_no_streams : Env :=
  env remuxed None (Ok (GoodJSON {| Streams := [] |})) None None
    (Ok "https://signed.example/").

(** The probing tool succeeds and prints something that is not the JSON
    document expected. *)
Definition env_bad_json : Env :=
  env remuxed None (Ok (BadJSON "unexpected end of JSON input")) None None
    (Ok "https://signed.example/").

End Demo.

(** ** The thumbnail handler *)

Definition set_ThumbnailURL (video : Video) (url : option string) : Video :=
  {| ID := ID video; UserID := UserID video;
     ThumbnailURL := url; VideoURL := VideoURL video |}.

(** [cfg *apiConfig]: the two fields only the thumbnail handler reads. *)
Record assetsConfig := { assetsRoot : string; port : string }.

(** The two library calls only the thumbnail handler makes: [filepath.Join]
    on two elements, and the outcome of [os.Create] on a path. *)
Record AssetsEnv := {
  filepath_Join : string -> string -> string;
  os_Create : string -> option error
}.

(** [r.ParseMultipartForm(maxMemory)]: the body is read to its end and parsed;
    [maxMemory] bounds what is kept in memory, not what is accepted. *)
Definition ParseMultipartForm (r : Request) (maxMemory : Z) : option error :=
  let body := ReqBody r in
  let too_large := match Limit body with Some n => n <? Length body | None => false end in
  if too_large then Some "http: request body too large"
  else match Parts body with
       | Err e => Some e
       | Ok _ => None
       end.

Section Thumbnail.

Variable cfg : apiConfig.
Variable assets : assetsConfig.
Variable env : Env.
Variable fs : AssetsEnv.

(** [os.Create(name)]: the file is created, or truncated if it exists. *)
Definition Create (name : string) : Handler (option error) := fun s =>
  match os_Create fs name with
  | Some err => (Next (Some err), s)
  | None =>
      (Next None, set_world s (set_disk (world s) (<[name := []]> (disk (world s)))))
  end.

(** [handlerUploadThumbnail], up to its return. *)
Definition handlerUploadThumbnail_body (r : Request) : Handler unit :=
  let videoIDString := PathValue_videoID r in
  videoID ← orFail (uuid_Parse env videoIDString) StatusBadRequest "Invalid ID";
  token ← orFail (auth_GetBearerToken env (Header r)) StatusUnauthorized "Couldn't find JWT";
  userID ← orFail (auth_ValidateJWT env token (jwtSecret cfg))
             StatusUnauthorized "Couldn't validate JWT";
  (* fmt.Println(...) writes a line to standard output and nothing else *)
  let maxUploadSize := Z.shiftl 10 20 in
  orFail (match ParseMultipartForm r maxUploadSize with Some e => Err e | None => Ok tt end)
    StatusBadRequest "Couldn't parse multipart form" ;;
  formFile ← orFail (FormFile r "thumbnail") StatusBadRequest "Couldn't parse multipart form";
  res ← GetVideo videoID;
  video ← orFail res StatusNotFound "Couldn't get video";
  (if negb (N.eqb (UserID video) userID)
   then respondWithError StatusUnauthorized "You can't upload a thumbnail for this video" None
        ;; return_
   else mret tt) ;;
  let contentType := PartContentType formFile in
  mediaType ← orFail (mime_ParseMediaType env contentType)
                StatusBadRequest "Couldn't parse media type";
  (if negb (String.eqb mediaType "image/jpeg") && negb (String.eqb mediaType "image/png")
   then respondWithError StatusBadRequest "Unsupported file type" None ;; return_
   else mret tt) ;;
  let randomString := Base64.EncodeToString (randomBytes env) in
  let extension := getExtension mediaType in
  let newfilePath :=
    filepath_Join fs (assetsRoot assets) (randomString +:+ "." +:+ extension) in
  err ← Create newfilePath;
  orFail (match err with Some e => Err e | None => Ok tt end)
    StatusInternalServerError "Couldn't create file" ;;
  defer (DeferClose newfilePath) ;;
  err ← Copy env newfilePath (Content formFile);
  orFail (match err with Some e => Err e | None => Ok tt end)
    StatusInternalServerError "Couldn't copy file" ;;
  let thumbnailURL :=
    "http://localhost:" +:+ port assets +:+ "/assets/" +:+ randomString +:+ "." +:+ extension in
  let video := set_ThumbnailURL video (Some thumbnailURL) in
  err ← UpdateVideo env video;
  orFail (match err with Some e => Err e | None => Ok tt end)
    StatusInternalServerError "Couldn't update video" ;;
  respondWithJSON StatusOK video.

(** [handlerUploadThumbnail]: the body, then the deferred call. *)
Definition handlerUploadThumbnail (r : Request) (w : World) : Outcome :=
  run (handlerUploadThumbnail_body r) w.

End Thumbnail.

(** The name the thumbnail is stored and served under: the encoded random
    bytes, a dot and the extension looked up for the media type. *)
Definition thumbnail_name (env : Env) (mediaType : string) : string :=
  Base64.EncodeToString (randomBytes env) +:+ "." +:+ getExtension mediaType.

(** A deployment for the thumbnail examples. *)
Module DemoThumbnail.

Definition assets : assetsConfig := {| assetsRoot := "./assets"; port := "8091" |}.

Definition fs (create : option error) : AssetsEnv :=
  {| filepath_Join := fun dir name => dir +:+ "/" +:+ name;
     os_Create := fun _ => create |}.

Definition thumbnail (token : string) (mediaType : string) : Request :=
  {| PathValue_videoID := "7";
     Header := [("Authorization", token)];
     ReqBody := {| Length := 2048; Limit := None;
                   Parts := Ok [{| FormName := "thumbnail"; PartContentType := mediaType;
                                   Content := ["P"%byte; "N"%byte; "G"%byte] |}] |} |}.

(** The owner uploads a PNG thumbnail. *)
Definition request : Request := thumbnail "Bearer alice" "image/png".

(** The owner uploads a GIF, which the extension table knows. *)
Definition request_gif : Request := thumbnail "Bearer alice" "image/gif".

(** Another authenticated user uploads a PNG to alice's video. *)
Definition request_by_bob : Request := thumbnail "Bearer bob" "image/png".

(** The same video, already published. *)
Definition published : Video :=
  set_VideoURL Demo.video7 (Some "tubely,landscape/abc.bin").

Definition world : World := {| db := [published]; disk := ∅; s3 := ∅ |}.

End DemoThumbnail.

(** What a row of the table keeps through an upload. *)
Definition identity_of (video : Video) : UUID * UUID * option string :=
  (ID video, UserID video, ThumbnailURL video).

(** * Properties *)

(** ** Sanity checks on concrete values *)

Example classify_1920_1080 : classify 1920 1080 = "landscape".
Proof. vm_compute. reflexivity. Qed.
Example classify_1080_1920 : classify 1080 1920 = "portrait".
Proof. vm_compute. reflexivity. Qed.
Example classify_1000_1000 : classify 1000 1000 = "other".
Proof. vm_compute. reflexivity. Qed.
Example classify_zero_height : classify 640 0 = "other".
Proof. vm_compute. reflexivity. Qed.
Example Encode_3 : Base64.EncodeToString ["M"%byte; "a"%byte; "n"%byte] = "TWFu".
Proof. reflexivity. Qed.
Example Encode_2 : Base64.EncodeToString ["M"%byte; "a"%byte] = "TWE".
Proof. reflexivity. Qed.
Example Encode_1 : Base64.EncodeToString [Byte.xff] = "_w".
Proof. reflexivity. Qed.
Example Split_pair : strings_Split "bucket,landscape/abc.bin" ","%char = ["bucket"; "landscape/abc.bin"].
Proof. reflexivity. Qed.
Example Split_none : strings_Split "nocomma" ","%char = ["nocomma"].
Proof. reflexivity. Qed.

(** ** Binary64 rounding: the two tolerance bands cannot overlap

    A difference that rounds below [epsilon] has a small exact value: rounding
    never lowers the exponent [fexp (digits m + e)] of the exact result, so a
    rounded magnitude under [2^-9] bounds the digits of the exact integer
    mantissa.  The two centres are more than [2^-8] apart. *)

Module Rounding.

Abbreviation emin := (SpecFloat.emin prec emax).
Abbreviation fexp := (SpecFloat.fexp prec emax).

Lemma emin_value : emin = -1074.
Proof. reflexivity. Qed.

Lemma fexp_value e : fexp e = Z.max (e - 53) (-1074).
Proof. reflexivity. Qed.

Lemma digits2_pos_upper (p : positive) : Zpos p < 2 ^ Zpos (digits2_pos p).
Proof.
  induction p as [p IH | p IH |]; simpl digits2_pos;
    rewrite ?Pos2Z.inj_succ, ?Z.pow_succ_r by lia; lia.
Qed.

Lemma digits2_pos_lower (p : positive) : 2 ^ (Zpos (digits2_pos p) - 1) <= Zpos p.
Proof.
  induction p as [p IH | p IH |]; simpl digits2_pos.
  - rewrite Pos2Z.inj_succ.
    replace (Z.succ (Zpos (digits2_pos p)) - 1) with (Z.succ (Zpos (digits2_pos p) - 1)) by lia.
    rewrite Z.pow_succ_r by lia. lia.
  - rewrite Pos2Z.inj_succ.
    replace (Z.succ (Zpos (digits2_pos p)) - 1) with (Z.succ (Zpos (digits2_pos p) - 1)) by lia.
    rewrite Z.pow_succ_r by lia. lia.
  - reflexivity.
Qed.

Lemma Zdigits2_abs (m : Z) : Z.abs m < 2 ^ Zdigits2 m.
Proof.
  destruct m as [| p | p]; simpl; [reflexivity | |]; apply digits2_pos_upper.
Qed.

(** SpecFloat's binary iteration agrees with unary iteration. *)
Lemma iter_pos_nat {A} (f : A -> A) (p : positive) (x : A) :
  SpecFloat.iter_pos f p x = Nat.iter (Pos.to_nat p) f x.
Proof.
  revert x; induction p as [p IH | p IH |]; intros x; simpl SpecFloat.iter_pos.
  - rewrite !IH, Pos2Nat.inj_xI.
    replace (S (2 * Pos.to_nat p))%nat with (Pos.to_nat p + (Pos.to_nat p + 1))%nat by lia.
    rewrite !Nat.iter_add. reflexivity.
  - rewrite !IH, Pos2Nat.inj_xO.
    replace (2 * Pos.to_nat p)%nat with (Pos.to_nat p + Pos.to_nat p)%nat by lia.
    rewrite Nat.iter_add. reflexivity.
  - reflexivity.
Qed.

Lemma shr_1_m (mrs : shr_record) :
  0 <= shr_m mrs -> shr_m (shr_1 mrs) = shr_m mrs / 2.
Proof.
  destruct mrs as [m r s]; simpl; intros Hm.
  destruct m as [| [p | p |] | p]; simpl; try reflexivity; try lia.
  - rewrite Pos2Z.inj_xI. apply Z.div_unique with (r := 1); lia.
  - rewrite Pos2Z.inj_xO. apply Z.div_unique with (r := 0); lia.
Qed.

Lemma shr_iter_m (n : nat) (mrs : shr_record) :
  0 <= shr_m mrs ->
  shr_m (Nat.iter n shr_1 mrs) = shr_m mrs / 2 ^ Z.of_nat n.
Proof.
  intros Hm; induction n as [| n IH].
  - simpl. now rewrite Z.div_1_r.
  - rewrite Nat2Z.inj_succ, Z.pow_succ_r by lia.
    simpl Nat.iter. rewrite shr_1_m.
    + rewrite IH, Z.mul_comm, Z.div_div by lia. reflexivity.
    + rewrite IH. apply Z.div_pos; lia.
Qed.

Lemma shr_record_of_loc_m m l : shr_m (shr_record_of_loc m l) = m.
Proof. destruct l as [| []]; reflexivity. Qed.

(** Shifting to the target exponent keeps a positive mantissa positive and
    never lowers the exponent. *)
Lemma shr_fexp_pos (m e : Z) (l : location) :
  0 < m -> -1074 <= e ->
  0 < shr_m (fst (shr_fexp prec emax m e l)) /\
  Z.max e (fexp (Zdigits2 m + e)) = snd (shr_fexp prec emax m e l).
Proof.
  intros Hm He. unfold shr_fexp, shr.
  destruct m as [| p | p]; try lia. simpl Zdigits2.
  pose proof (digits2_pos_lower p) as Hlo.
  set (d := Zpos (digits2_pos p)) in *.
  rewrite fexp_value.
  destruct (Z.max (d + e - 53) (-1074) - e) as [| n | n] eqn:Hn; simpl fst; simpl snd.
  - rewrite shr_record_of_loc_m. lia.
  - rewrite iter_pos_nat, shr_iter_m, shr_record_of_loc_m, positive_nat_Z
      by (rewrite shr_record_of_loc_m; lia).
    split; [| lia].
    apply Z.div_str_pos. split; [lia |].
    transitivity (2 ^ (d - 1)); [| exact Hlo].
    apply Z.pow_le_mono_r; lia.
  - rewrite shr_record_of_loc_m. lia.
Qed.

Lemma round_nearest_even_pos (m : Z) (l : location) :
  0 < m -> 0 < round_nearest_even m l.
Proof.
  intros Hm. destruct l as [| []]; simpl; try lia.
  destruct (Z.even m); lia.
Qed.

(** What rounding a non-zero value can produce: an infinity, or a finite
    number whose exponent is at least [E]. *)
Inductive rounded_above (sx : bool) (E : Z) : spec_float -> Prop :=
| ra_infinity : rounded_above sx E (S754_infinity sx)
| ra_finite m e : E <= e -> rounded_above sx E (S754_finite sx m e).

Lemma rounded_above_weaken sx E E' x :
  E' <= E -> rounded_above sx E x -> rounded_above sx E' x.
Proof. intros HE [| m e He]; constructor; lia. Qed.

Lemma binary_round_aux_above sx mx ex lx :
  0 < mx -> -1074 <= ex ->
  rounded_above sx (Z.max ex (fexp (Zdigits2 mx + ex)))
    (binary_round_aux prec emax sx mx ex lx).
Proof.
  intros Hm He. unfold binary_round_aux.
  destruct (shr_fexp_pos mx ex lx Hm He) as [Hm1 He1].
  destruct (shr_fexp prec emax mx ex lx) as [mrs' e']. simpl in Hm1, He1.
  pose proof (round_nearest_even_pos _ (loc_of_shr_record mrs') Hm1) as Hr.
  set (mr := round_nearest_even (shr_m mrs') (loc_of_shr_record mrs')) in *.
  destruct (shr_fexp_pos mr e' loc_Exact Hr) as [Hm2 He2]; [lia |].
  destruct (shr_fexp prec emax mr e' loc_Exact) as [mrs'' e'']. simpl in Hm2, He2.
  destruct (shr_m mrs'') as [| m | m]; try lia.
  destruct (e'' <=? emax - prec)%Z; constructor; lia.
Qed.

Lemma shl_align_cases (mx : positive) (ex E : Z) :
  (E < ex /\ snd (shl_align mx ex E) = E) \/
  (ex <= E /\ shl_align mx ex E = (mx, ex)).
Proof.
  unfold shl_align. destruct (E - ex) as [| d | d] eqn:Hd; simpl; [right | right | left]; split; try reflexivity; lia.
Qed.

Lemma binary_round_above sx mx ex :
  -1074 <= ex ->
  rounded_above sx (fexp (Zpos (digits2_pos mx) + ex))
    (binary_round prec emax sx mx ex).
Proof.
  intros He. unfold binary_round.
  remember (fexp (Zpos (digits2_pos mx) + ex)) as E eqn:HE.
  assert (HEmin : -1074 <= E) by (subst E; rewrite fexp_value; lia).
  destruct (shl_align_cases mx ex E) as [[Hlt Hsnd] | [Hle Heq]].
  - destruct (shl_align mx ex E) as [mz ez]. simpl in Hsnd. subst ez.
    eapply rounded_above_weaken; [| apply binary_round_aux_above; lia]. lia.
  - rewrite Heq.
    eapply rounded_above_weaken; [| apply binary_round_aux_above; lia].
    simpl Zdigits2. rewrite <- HE. lia.
Qed.

(** Binary64 [0.001], decoded. *)
Definition epsilon_SF : spec_float := S754_finite false 4611686018427388 (-62).

Lemma epsilon_decoded : Prim2SF Float64.epsilon = epsilon_SF.
Proof. vm_compute. reflexivity. Qed.

Lemma rounded_above_small sx E x :
  rounded_above sx E x -> SFltb (SFabs x) epsilon_SF = true -> E <= -62.
Proof.
  intros [| m e He]; cbv [SFltb SFabs SFcompare epsilon_SF]; [discriminate |].
  destruct (Z.compare_spec e (-62)); intros; try lia; discriminate.
Qed.

(** A difference that rounds strictly below [0.001] is below [2^-9]. *)
Lemma normalize_small (M ez : Z) :
  -1074 <= ez <= -9 ->
  SFltb (SFabs (binary_normalize prec emax M ez false)) epsilon_SF = true ->
  Z.abs M < 2 ^ (-9 - ez).
Proof.
  intros Hez Hlt.
  assert (Hd : M <> 0 -> Zdigits2 M + ez - 53 <= -62).
  { intros HM. destruct M as [| m | m]; [congruence | |]; simpl in Hlt |- *.
    - pose proof (rounded_above_small _ _ _ (binary_round_above false m ez ltac:(lia)) Hlt) as H.
      rewrite fexp_value in H. lia.
    - pose proof (rounded_above_small _ _ _ (binary_round_above true m ez ltac:(lia)) Hlt) as H.
      rewrite fexp_value in H. lia. }
  destruct (Z.eq_dec M 0) as [-> | HM].
  - simpl. apply Z.pow_pos_nonneg; lia.
  - eapply Z.lt_le_trans; [apply Zdigits2_abs |].
    apply Z.pow_le_mono_r; [lia |]. specialize (Hd HM). lia.
Qed.

Lemma shl_align_fst (m : positive) (e ez : Z) :
  ez <= e -> Zpos (fst (shl_align m e ez)) = Zpos m * 2 ^ (e - ez).
Proof.
  intros H. unfold shl_align.
  destruct (ez - e) as [| d | d] eqn:Hd; simpl fst; try lia.
  - replace (e - ez) with 0 by lia. lia.
  - replace (e - ez) with (Zpos d) by lia.
    rewrite <- Z.shiftl_mul_pow2 by lia. simpl Z.shiftl.
    apply (Pos.iter_swap_gen _ _ Zpos xO (Z.mul 2)). reflexivity.
Qed.

(** The two centres, decoded. *)
Definition c_16_9_SF : spec_float := S754_finite false 8006399337547548 (-52).
Definition c_9_16_SF : spec_float := S754_finite false 5066549580791808 (-53).

Lemma c_16_9_decoded : Prim2SF Float64.c_16_9 = c_16_9_SF.
Proof. vm_compute. reflexivity. Qed.

Lemma c_9_16_decoded : Prim2SF Float64.c_9_16 = c_9_16_SF.
Proof. vm_compute. reflexivity. Qed.

Lemma near_spec (r c : float) :
  Float64.near r c = SFltb (SFabs (SF64sub (Prim2SF r) (Prim2SF c))) epsilon_SF.
Proof.
  unfold Float64.near. now rewrite ltb_spec, abs_spec, sub_spec, epsilon_decoded.
Qed.

Lemma cond_Zopp_mul (s : bool) (a b : Z) : cond_Zopp s (a * b) = cond_Zopp s a * b.
Proof. destruct s; simpl; lia. Qed.

(** A finite ratio that passes the test against a positive centre
    [mc * 2^ec] is, exactly, closer than [2^-9] to it; both values are
    scaled to the common exponent [min e ec]. *)
Lemma near_finite (s : bool) (m mc : positive) (e ec : Z) :
  -1074 <= e -> -1074 <= ec <= -9 ->
  SFltb (SFabs (SF64sub (S754_finite s m e) (S754_finite false mc ec))) epsilon_SF = true ->
  Z.abs (cond_Zopp s (Zpos m) * 2 ^ (e - Z.min e ec) - Zpos mc * 2 ^ (ec - Z.min e ec))
  < 2 ^ (-9 - Z.min e ec).
Proof.
  intros He Hec H. unfold SF64sub, SFsub in H.
  apply normalize_small in H; [| lia].
  rewrite !shl_align_fst in H by lia.
  rewrite cond_Zopp_mul in H. exact H.
Qed.

Lemma valid_exponent (s : bool) (m : positive) (e : Z) :
  valid_binary (S754_finite s m e) = true -> -1074 <= e.
Proof.
  unfold SpecFloat.valid_binary, bounded, canonical_mantissa.
  rewrite fexp_value. intros H.
  apply andb_prop in H as [H _]. apply Z.eqb_eq in H. lia.
Qed.

(** No binary64 ratio passes both tests. *)
Theorem near_exclusive (r : float) :
  Float64.near r Float64.c_16_9 = true -> Float64.near r Float64.c_9_16 = false.
Proof.
  rewrite !near_spec, c_16_9_decoded, c_9_16_decoded.
  pose proof (Prim2SF_valid r) as Hv.
  destruct (Prim2SF r) as [s | s | | s m e].
  - destruct s; vm_compute; discriminate.
  - destruct s; vm_compute; discriminate.
  - vm_compute; discriminate.
  - apply valid_exponent in Hv. intros H1.
    destruct (SFltb (SFabs (SF64sub (S754_finite s m e) c_9_16_SF)) epsilon_SF) eqn:H2;
      [exfalso | reflexivity].
    apply near_finite in H1; [| lia | lia].
    apply near_finite in H2; [| lia | lia].
    set (X := cond_Zopp s (Zpos m)) in *.
    destruct (Z.le_gt_cases e (-53)) as [Hle | Hgt].
    + rewrite !Z.min_l in H1, H2 by lia.
      replace (e - e) with 0 in * by lia.
      replace (-52 - e) with (Z.succ (-53 - e)) in H1 by lia.
      rewrite Z.pow_succ_r in H1 by lia.
      replace (-9 - e) with (44 + (-53 - e)) in H1, H2 by lia.
      rewrite Z.pow_add_r in H1, H2 by lia.
      assert (HP : 0 < 2 ^ (-53 - e)) by (apply Z.pow_pos_nonneg; lia).
      set (P := 2 ^ (-53 - e)) in *.
      change (2 ^ 44) with 17592186044416 in *. change (2 ^ 0) with 1 in *.
      lia.
    + rewrite !Z.min_r in H1, H2 by lia.
      replace (-52 - -52) with 0 in * by lia.
      replace (-53 - -53) with 0 in * by lia.
      replace (e - -53) with (Z.succ (e - -52)) in H2 by lia.
      rewrite Z.pow_succ_r in H2 by lia.
      set (P := 2 ^ (e - -52)) in *.
      change (2 ^ (-9 - -52)) with 8796093022208 in *.
      change (2 ^ (-9 - -53)) with 17592186044416 in *.
      change (2 ^ 0) with 1 in *.
      lia.
Qed.

End Rounding.

(** ** The metadata probe *)

Lemma getVideoAspectRatio_first_stream (env : Env) (path : string) (s : HState)
    (first : Stream) (rest : list Stream) :
  ffprobe_Run env = Ok (GoodJSON {| Streams := first :: rest |}) ->
  getVideoAspectRatio env path s
  = (Next (Ok (classify (Width first) (Height first))), log_call s (CallFfprobe path)).
Proof. intros H. unfold getVideoAspectRatio. rewrite H. reflexivity. Qed.

Lemma classify_cases (width height : Z) :
  classify width height = "landscape" \/ classify width height = "portrait"
  \/ classify width height = "other".
Proof.
  unfold classify.
  destruct (Float64.near _ Float64.c_16_9); [now left |].
  destruct (Float64.near _ Float64.c_9_16); [right; now left | right; now right].
Qed.

(** The chain of tests decides the label; since no ratio passes both tests
    ([Rounding.near_exclusive]) each label has its own test. *)
Lemma classify_by_tests (w h : Z) :
  (classify w h = "landscape" <-> Float64.near (ratio w h) Float64.c_16_9 = true) /\
  (classify w h = "portrait" <-> Float64.near (ratio w h) Float64.c_9_16 = true) /\
  (classify w h = "other" <-> Float64.near (ratio w h) Float64.c_16_9 = false
                              /\ Float64.near (ratio w h) Float64.c_9_16 = false).
Proof.
  unfold classify.
  pose proof (Rounding.near_exclusive (ratio w h)) as Hex.
  destruct (Float64.near (ratio w h) Float64.c_16_9) eqn:H1.
  - rewrite (Hex eq_refl). intuition discriminate.
  - destruct (Float64.near (ratio w h) Float64.c_9_16) eqn:H2; intuition discriminate.
Qed.

(** At 15991x9000 the exact distance to 16/9 is 0.001, not below it, while the
    binary64 difference rounds to a value below binary64 [0.001]. *)
Lemma classify_15991_9000 :
  classify 15991 9000 = "landscape" /\ ~ exact_near 15991 9000 (16 # 9).
Proof.
  split; [vm_compute; reflexivity |].
  unfold exact_near. intros H. vm_compute in H. discriminate H.
Qed.

(** C2, as stated, fails: with the tests read over exact quotients, "landscape
    if and only if |w/h - 16/9| < 0.001" is false for the frame 15991x9000,
    which the code labels landscape. *)
Lemma C2_exact_tolerance_fails :
  ~ (forall w h : Z, 0 < h -> (classify w h = "landscape" <-> exact_near w h (16 # 9))).
Proof.
  intros H. destruct classify_15991_9000 as [Hl Hn].
  apply Hn. apply (H 15991 9000); [lia | exact Hl].
Qed.

(** C2, amended: for a probed video whose first stream is w x h the probe
    returns a label, and with the ratio and both tolerance tests evaluated in
    binary64 arithmetic the label is landscape if and only if the test against
    16/9 holds, portrait if and only if the test against 9/16 holds, and other
    if and only if neither holds; 1920x1080 is landscape, 1080x1920 portrait
    and 1000x1000 other. *)
Theorem C2_label_by_float64_tolerance (env : Env) (path : string) (s : HState)
    (w h : Z) (rest : list Stream) :
  ffprobe_Run env = Ok (GoodJSON {| Streams := {| Width := w; Height := h |} :: rest |}) ->
  exists label : string,
    fst (getVideoAspectRatio env path s) = Next (Ok label) /\
    (label = "landscape" <-> Float64.near (ratio w h) Float64.c_16_9 = true) /\
    (label = "portrait" <-> Float64.near (ratio w h) Float64.c_9_16 = true) /\
    (label = "other" <-> Float64.near (ratio w h) Float64.c_16_9 = false
                         /\ Float64.near (ratio w h) Float64.c_9_16 = false) /\
    classify 1920 1080 = "landscape" /\ classify 1080 1920 = "portrait"
    /\ classify 1000 1000 = "other".
Proof.
  intros Hrun. exists (classify w h).
  rewrite (getVideoAspectRatio_first_stream _ _ _ _ _ Hrun). simpl.
  split; [reflexivity |].
  destruct (classify_by_tests w h) as (Hl & Hp & Ho).
  split; [exact Hl |]. split; [exact Hp |]. split; [exact Ho |].
  split; [apply classify_1920_1080 |].
  split; [apply classify_1080_1920 | apply classify_1000_1000].
Qed.

Lemma C2_label_witness :
  exists label : string,
    fst (getVideoAspectRatio Demo.env_ok "/tmp/upload" (start Demo.world)) = Next (Ok label) /\
    (label = "landscape" <-> Float64.near (ratio 1920 1080) Float64.c_16_9 = true) /\
    (label = "portrait" <-> Float64.near (ratio 1920 1080) Float64.c_9_16 = true) /\
    (label = "other" <-> Float64.near (ratio 1920 1080) Float64.c_16_9 = false
                         /\ Float64.near (ratio 1920 1080) Float64.c_9_16 = false) /\
    classify 1920 1080 = "landscape" /\ classify 1080 1920 = "portrait"
    /\ classify 1000 1000 = "other".
Proof.
  apply (C2_label_by_float64_tolerance Demo.env_ok "/tmp/upload" (start Demo.world)
           1920 1080 []).
  reflexivity.
Defined.

(** ** The identifier encoding *)

Module Base64Facts.

(** Induction that follows [Encode]: three elements at a time. *)
Lemma list_ind3 {A} (P : list A -> Prop) :
  P [] -> (forall a, P [a]) -> (forall a b, P [a; b]) ->
  (forall a b c l, P l -> P (a :: b :: c :: l)) ->
  forall l, P l.
Proof.
  intros H0 H1 H2 H3 l.
  assert (H : P l /\ (forall a, P (a :: l)) /\ (forall a b, P (a :: b :: l))).
  { induction l as [| x l (IH0 & IH1 & IH2)]; [now auto |].
    split; [apply IH1 |]. split; [intros a; apply IH2 |]. intros a b. now apply H3. }
  apply H.
Qed.

Lemma EncodedLen_step (n : nat) :
  Base64.EncodedLen (S (S (S n))) = S (S (S (S (Base64.EncodedLen n)))).
Proof.
  unfold Base64.EncodedLen.
  replace (S (S (S n))) with (n + 1 * 3)%nat by lia.
  rewrite Nat.div_add, Nat.Div0.mod_add by lia. lia.
Qed.

(** The encoder writes exactly [EncodedLen] characters. *)
Lemma Encode_length (src : list Byte.byte) :
  length (Base64.Encode src) = Base64.EncodedLen (length src).
Proof.
  induction src as [| a | a b | a b c l IH] using list_ind3; try reflexivity.
  cbn [Base64.Encode length]. rewrite IH, EncodedLen_step. reflexivity.
Qed.

Lemma encode_url_safe (i : N) : Base64.url_safe (Base64.encode i) = true.
Proof.
  unfold Base64.encode.
  assert (H : forallb Base64.url_safe (list_ascii_of_string Base64.encodeURL) = true)
    by (vm_compute; reflexivity).
  destruct (nth_in_or_default (N.to_nat i) (list_ascii_of_string Base64.encodeURL) "A"%char)
    as [Hin | ->]; [| reflexivity].
  exact (proj1 (List.forallb_forall _ _) H _ Hin).
Qed.

(** Every character written comes from the URL-safe alphabet; there is no
    padding character among them. *)
Lemma Encode_url_safe (src : list Byte.byte) :
  Forall (fun c => Base64.url_safe c = true) (Base64.Encode src).
Proof.
  induction src as [| a | a b | a b c l IH] using list_ind3; cbn [Base64.Encode];
    repeat (constructor; [apply encode_url_safe |]); auto.
Qed.

Lemma string_of_list_ascii_length (l : list ascii) :
  String.length (string_of_list_ascii l) = length l.
Proof. induction l as [| c l IH]; simpl; congruence. Qed.

Lemma EncodeToString_length (src : list Byte.byte) :
  String.length (Base64.EncodeToString src) = Base64.EncodedLen (length src).
Proof.
  unfold Base64.EncodeToString. now rewrite string_of_list_ascii_length, Encode_length.
Qed.

Lemma EncodeToString_url_safe (src : list Byte.byte) :
  Forall (fun c => Base64.url_safe c = true)
    (list_ascii_of_string (Base64.EncodeToString src)).
Proof.
  unfold Base64.EncodeToString. rewrite list_ascii_of_string_of_list_ascii.
  apply Encode_url_safe.
Qed.

End Base64Facts.

(** ** Splitting the persisted reference *)

Lemma has_char_app (c : ascii) (a b : string) :
  has_char c (a +:+ b) = has_char c a || has_char c b.
Proof.
  induction a as [| x a IH]; simpl; [reflexivity |].
  now rewrite IH, orb_assoc.
Qed.

Lemma Split_without_sep (s : string) (sep : ascii) :
  has_char sep s = false -> strings_Split s sep = [s].
Proof.
  induction s as [| c s IH]; simpl; [reflexivity |].
  intros H. apply orb_false_elim in H as [Hc Hs].
  now rewrite Hc, (IH Hs).
Qed.

Lemma Split_at_sep (a b : string) (sep : ascii) :
  has_char sep a = false ->
  strings_Split (a +:+ String sep b) sep = a :: strings_Split b sep.
Proof.
  induction a as [| c a IH]; simpl.
  - intros _. now rewrite Ascii.eqb_refl.
  - intros H. apply orb_false_elim in H as [Hc Ha].
    now rewrite Hc, (IH Ha).
Qed.

(** A reference [bucket,key] splits back into its two parts when neither
    contains a comma. *)
Lemma Split_reference (bucket key : string) :
  has_char ","%char bucket = false -> has_char ","%char key = false ->
  strings_Split (bucket +:+ "," +:+ key) ","%char = [bucket; key].
Proof.
  intros Hb Hk. change ("," +:+ key) with (String ","%char key).
  now rewrite Split_at_sep, Split_without_sep.
Qed.

Lemma url_safe_has_no_comma (s : string) :
  Forall (fun c => Base64.url_safe c = true) (list_ascii_of_string s) ->
  has_char ","%char s = false.
Proof.
  induction s as [| c s IH]; simpl; [reflexivity |].
  intros H. inversion H as [| ? ? Hc Hs]; subst.
  rewrite (IH Hs), orb_false_r.
  destruct (Ascii.eqb_spec c ","%char) as [-> | _]; [| reflexivity].
  vm_compute in Hc. discriminate Hc.
Qed.

(** The keys the handler derives contain no comma. *)
Lemma key_has_no_comma (w h : Z) (src : list Byte.byte) :
  has_char ","%char
    (classify w h +:+ "/" +:+ Base64.EncodeToString src +:+ "." +:+ "bin") = false.
Proof.
  rewrite !has_char_app.
  rewrite (url_safe_has_no_comma _ (Base64Facts.EncodeToString_url_safe src)).
  destruct (classify_cases w h) as [-> | [-> | ->]]; reflexivity.
Qed.

(** ** Running the handler symbolically *)

(** Unfolds the handler and its monad down to the calls of the environment,
    leaving library functions (encoder, splitter, classifier, maps) folded. *)
Ltac unfold_handler :=
  cbv beta iota zeta delta
    [handlerUploadVideo run finish start handlerUploadVideo_body
     mbind mret Handler_bind Handler_ret orFail return_ panic defer index
     respondWithError respondWithJSON
     GetVideo UpdateVideo CreateTemp Copy Seek Open PutObject
     processVideoForFastStart getVideoAspectRatio generatePresignedURL
     dbVideoToSignedVideo json_Unmarshal FormFile http_MaxBytesReader set_Body
     os_Remove run_deferred log_call set_world set_db set_disk set_s3
     set_VideoURL VideoURL world calls written deferred db disk s3 response panicked final trace
     ReqBody Limit Length Parts PathValue_videoID Header
     fold_left app fst snd negb] in *.

(** Case analysis on the next call whose result the handler inspects. *)
Ltac branch :=
  match goal with
  | |- context [match ?x with _ => _ end] =>
      lazymatch x with
      | context [match _ with _ => _ end] => fail
      | _ => destruct x eqn:?
      end
  end; cbv beta iota.

Ltac status_values :=
  cbv [StatusCode Body StatusOK StatusBadRequest StatusUnauthorized StatusNotFound
       StatusInternalServerError] in *.

(** ** C1: what a failing request leaves in the database *)

Lemma sign_failure_outcome :
  let o := handlerUploadVideo Demo.cfg Demo.env_sign_fails Demo.request Demo.world in
  response o = Some {| StatusCode := StatusInternalServerError;
                       Body := ErrorBody "Couldn't sign video" |}
  /\ db (final o)
     = [set_VideoURL Demo.video7
          (Some "tubely,landscape/AAECAwQFBgcICQoLDA0ODxAREhMUFRYXGBkaGxwdHh8.bin")].
Proof. vm_compute. split; reflexivity. Qed.

(** C1, as stated, fails: when presigning fails after the record update, the
    request ends in a failure response and the record's playback location has
    been persisted. *)
Lemma C1_sign_failure_keeps_update :
  ~ (forall cfg env r w resp,
        response (handlerUploadVideo cfg env r w) = Some resp ->
        StatusCode resp <> StatusOK ->
        db (final (handlerUploadVideo cfg env r w)) = db w).
Proof.
  intros H. destruct sign_failure_outcome as [Hresp Hdb].
  specialize (H _ _ _ _ _ Hresp ltac:(discriminate)).
  rewrite Hdb in H. discriminate H.
Qed.

(** C1, amended: for every request that ends in a failure response other than
    the final signing failure ("Couldn't sign video"), the table of records is
    left as it was; this covers the failures after the object-store upload up
    to and including the failed record update. *)
Theorem C1_failure_leaves_record (cfg : apiConfig) (env : Env) (r : Request) (w : World)
    (resp : Response) :
  response (handlerUploadVideo cfg env r w) = Some resp ->
  StatusCode resp <> StatusOK ->
  Body resp <> ErrorBody "Couldn't sign video" ->
  db (final (handlerUploadVideo cfg env r w)) = db w.
Proof.
  unfold_handler. repeat branch; try reflexivity;
    intros H; inversion H; subst; status_values; intros; congruence.
Qed.

Lemma C1_failure_witness :
  db (final (handlerUploadVideo Demo.cfg Demo.env_update_fails Demo.request Demo.world))
  = db Demo.world.
Proof.
  apply (C1_failure_leaves_record Demo.cfg Demo.env_update_fails Demo.request Demo.world
           {| StatusCode := StatusInternalServerError;
              Body := ErrorBody "Couldn't update video" |}).
  - vm_compute. reflexivity.
  - discriminate.
  - discriminate.
Defined.

(** ** C3: a caller who does not own the record *)

(** C3: when the authenticated identity is not the record's owner, the
    request is rejected (status 401 with the message "User not authorized to
    edit video", different from the messages of a missing or invalid
    credential); the only call made is the load of the record, so the check
    comes after the load and before any processing or storage effect, and the
    world, the record included, is left as it was. *)
Theorem C3_non_owner_rejected (cfg : apiConfig) (env : Env) (r : Request) (w : World)
    (videoID userID : UUID) (token : string) (video : Video) :
  uuid_Parse env (PathValue_videoID r) = Ok videoID ->
  auth_GetBearerToken env (Header r) = Ok token ->
  auth_ValidateJWT env token (jwtSecret cfg) = Ok userID ->
  find (fun v => N.eqb (ID v) videoID) (db w) = Some video ->
  UserID video <> userID ->
  handlerUploadVideo cfg env r w
  = {| response := Some {| StatusCode := StatusUnauthorized;
                           Body := ErrorBody "User not authorized to edit video" |};
       panicked := false;
       final := w;
       trace := [CallGetVideo videoID] |}.
Proof.
  intros Hid Htoken Hjwt Hfind Howner. unfold_handler.
  rewrite Hid, Htoken, Hjwt, Hfind. cbv beta iota.
  apply N.eqb_neq in Howner. rewrite Howner. reflexivity.
Qed.

Lemma C3_non_owner_witness :
  handlerUploadVideo Demo.cfg Demo.env_ok Demo.request_by_bob Demo.world
  = {| response := Some {| StatusCode := StatusUnauthorized;
                           Body := ErrorBody "User not authorized to edit video" |};
       panicked := false;
       final := Demo.world;
       trace := [CallGetVideo 7%N] |}.
Proof.
  apply (C3_non_owner_rejected Demo.cfg Demo.env_ok Demo.request_by_bob Demo.world
           7%N Demo.bob "Bearer bob" Demo.video7).
  - reflexivity.
  - reflexivity.
  - reflexivity.
  - reflexivity.
  - discriminate.
Defined.

(** ** C4: a body over 1 GiB *)





(** ** C5: a part that is not declared as an MP4 video *)



(** A declared type that does not even parse is rejected at the same place. *)
Lemma unparsable_media_type_rejected (cfg : apiConfig) (env : Env) (r : Request)
    (w : World) (videoID : UUID) (token : string) (video : Video) (formFile : Part)
    (e : error) :
  uuid_Parse env (PathValue_videoID r) = Ok videoID ->
  auth_GetBearerToken env (Header r) = Ok token ->
  auth_ValidateJWT env token (jwtSecret cfg) = Ok (UserID video) ->
  find (fun v => N.eqb (ID v) videoID) (db w) = Some video ->
  FormFile (set_Body r (http_MaxBytesReader (ReqBody r) (Z.shiftl 1 30))) "video"
  = Ok formFile ->
  mime_ParseMediaType env (PartContentType formFile) = Err e ->
  handlerUploadVideo cfg env r w
  = {| response := Some {| StatusCode := StatusBadRequest;
                           Body := ErrorBody "Couldn't parse media type" |};
       panicked := false;
       final := w;
       trace := [CallGetVideo videoID] |}.
Proof.
  intros Hid Htoken Hjwt Hfind Hform Hmime.
  unfold handlerUploadVideo, run, handlerUploadVideo_body.
  cbv beta iota zeta delta
    [mbind mret Handler_bind Handler_ret orFail return_ defer respondWithError
     GetVideo start finish run_deferred log_call fold_left app fst snd negb
     world calls written deferred response panicked final trace].
  rewrite Hid, Htoken, Hjwt, Hfind. cbv beta iota.
  rewrite N.eqb_refl, Hform. cbv beta iota. rewrite Hmime. reflexivity.
Qed.

(** ** The successful upload *)

(** A response of status 200 is only reached through every step: the run is
    then determined by the record loaded, the name of the temporary file, the
    first stream reported and the two parts the persisted reference splits
    into. *)
Lemma upload_success (cfg : apiConfig) (env : Env) (r : Request) (w : World)
    (resp : Response) :
  response (handlerUploadVideo cfg env r w) = Some resp ->
  StatusCode resp = StatusOK ->
  exists videoID video tempFile data cmdResult first bucket key url,
    find (fun v => N.eqb (ID v) videoID) (db w) = Some video /\
    ffprobe_Run env = Ok (GoodJSON cmdResult) /\
    nth_error (Streams cmdResult) 0 = Some first /\
    let fileKey := derived_key env first in
    let location := s3Bucket cfg +:+ "," +:+ fileKey in
    let stored := set_VideoURL video (Some location) in
    nth_error (strings_Split location ","%char) 0 = Some bucket /\
    nth_error (strings_Split location ","%char) 1 = Some key /\
    s3_PresignGetObject env bucket key (10 * time_Minute) = Ok url /\
    resp = {| StatusCode := StatusOK; Body := VideoBody (set_VideoURL stored (Some url)) |} /\
    panicked (handlerUploadVideo cfg env r w) = false /\
    db (final (handlerUploadVideo cfg env r w))
    = map (fun v => if N.eqb (ID v) (ID stored) then stored else v) (db w) /\
    s3 (final (handlerUploadVideo cfg env r w))
    = <[(s3Bucket cfg, fileKey) := {| ObjectBody := data; ObjectContentType := "video/mp4" |}]>
        (s3 w) /\
    trace (handlerUploadVideo cfg env r w)
    = [CallGetVideo videoID; CallCreateTemp tempFile; CallCopy tempFile; CallSeek tempFile;
       CallFfmpeg tempFile (tempFile +:+ ".processing");
       CallOpen (tempFile +:+ ".processing"); CallFfprobe tempFile;
       CallPutObject (s3Bucket cfg) fileKey; CallUpdateVideo stored;
       CallPresign bucket key (10 * time_Minute);
       CallRemove (tempFile +:+ ".processing"); CallRemove tempFile].
Proof.
  unfold derived_key. unfold_handler.
  repeat branch;
    intros H; inversion H; subst; status_values; intros; try discriminate;
    repeat match goal with
           | H : String.eqb _ _ = true |- _ => apply String.eqb_eq in H; subst
           end.
  all: do 9 eexists; repeat (split; [eassumption || reflexivity |]); reflexivity.
Qed.

Lemma randomBytes_length (env : Env) : length (randomBytes env) = 32%nat.
Proof. reflexivity. Qed.

(** ** C6: the object key *)



(** ** C9: the persisted reference and the signed URL *)

(** After an update, loading by the same identifier returns the new record. *)
Lemma find_after_update (rows : list Video) (id : UUID) (video stored : Video) :
  find (fun v => N.eqb (ID v) id) rows = Some video ->
  ID stored = ID video ->
  find (fun v => N.eqb (ID v) id)
    (map (fun v => if N.eqb (ID v) (ID stored) then stored else v) rows)
  = Some stored.
Proof.
  intros Hfind Hid.
  assert (Hvid : ID video = id).
  { apply find_some in Hfind as [_ H]. now apply N.eqb_eq in H. }
  induction rows as [| a rows IH]; [discriminate |].
  cbn [find map] in *.
  destruct (N.eqb (ID a) id) eqn:Ha.
  - injection Hfind as ->. rewrite Hid, N.eqb_refl, Hid, Hvid, N.eqb_refl. reflexivity.
  - destruct (N.eqb (ID a) (ID stored)) eqn:Hs.
    + apply N.eqb_eq in Hs. apply N.eqb_neq in Ha. congruence.
    + rewrite Ha. now apply IH.
Qed.

(** C9: on every successful upload to a bucket whose name has no comma (no
    bucket name has one), the record persisted for the video has the single
    string "{bucket},{key}" as its location, which splits back into exactly
    that pair; the object is stored under that pair; and the record returned
    to the client is the same record with the location replaced by the URL
    presigned for that bucket and key with an expiry of 10 minutes. *)
Theorem C9_reference_then_signed_url (cfg : apiConfig) (env : Env) (r : Request)
    (w : World) (resp : Response) :
  has_char ","%char (s3Bucket cfg) = false ->
  response (handlerUploadVideo cfg env r w) = Some resp ->
  StatusCode resp = StatusOK ->
  exists videoID video key url,
    find (fun v => N.eqb (ID v) videoID) (db w) = Some video /\
    find (fun v => N.eqb (ID v) videoID) (db (final (handlerUploadVideo cfg env r w)))
    = Some (set_VideoURL video (Some (s3Bucket cfg +:+ "," +:+ key))) /\
    strings_Split (s3Bucket cfg +:+ "," +:+ key) ","%char = [s3Bucket cfg; key] /\
    is_Some (s3 (final (handlerUploadVideo cfg env r w)) !! (s3Bucket cfg, key)) /\
    s3_PresignGetObject env (s3Bucket cfg) key (10 * time_Minute) = Ok url /\
    10 * time_Minute = 600 * 1000000000 /\
    In (CallPresign (s3Bucket cfg) key (10 * time_Minute))
       (trace (handlerUploadVideo cfg env r w)) /\
    resp = {| StatusCode := StatusOK; Body := VideoBody (set_VideoURL video (Some url)) |}.
Proof.
  intros Hbucket Hresp Hcode.
  destruct (upload_success cfg env r w resp Hresp Hcode)
    as (videoID & video & tempFile & data & cmdResult & first & bucket & key & url
        & Hfind & _ & _ & Hb & Hk & Hsign & -> & _ & Hdb & Hs3 & Htrace).
  cbv zeta in *.
  assert (Hsplit : strings_Split (s3Bucket cfg +:+ "," +:+ derived_key env first) ","%char
                   = [s3Bucket cfg; derived_key env first])
    by (apply Split_reference; [exact Hbucket | apply key_has_no_comma]).
  rewrite Hsplit in Hb, Hk. injection Hb as <-. injection Hk as <-.
  exists videoID, video, (derived_key env first), url.
  split; [exact Hfind |]. split.
  { rewrite Hdb. apply find_after_update with (video := video); [exact Hfind | reflexivity]. }
  split; [exact Hsplit |]. split.
  { rewrite Hs3, lookup_insert_eq. eauto. }
  split; [exact Hsign |]. split; [reflexivity |]. split.
  { rewrite Htrace. simpl. tauto. }
  reflexivity.
Qed.

Lemma C9_reference_witness :
  exists videoID video key url,
    find (fun v => N.eqb (ID v) videoID) (db Demo.world) = Some video /\
    find (fun v => N.eqb (ID v) videoID)
      (db (final (handlerUploadVideo Demo.cfg Demo.env_ok Demo.request Demo.world)))
    = Some (set_VideoURL video (Some (s3Bucket Demo.cfg +:+ "," +:+ key))) /\
    strings_Split (s3Bucket Demo.cfg +:+ "," +:+ key) ","%char = [s3Bucket Demo.cfg; key] /\
    is_Some (s3 (final (handlerUploadVideo Demo.cfg Demo.env_ok Demo.request Demo.world))
               !! (s3Bucket Demo.cfg, key)) /\
    s3_PresignGetObject Demo.env_ok (s3Bucket Demo.cfg) key (10 * time_Minute) = Ok url /\
    10 * time_Minute = 600 * 1000000000 /\
    In (CallPresign (s3Bucket Demo.cfg) key (10 * time_Minute))
       (trace (handlerUploadVideo Demo.cfg Demo.env_ok Demo.request Demo.world)) /\
    {| StatusCode := StatusOK;
       Body := VideoBody (set_VideoURL Demo.video7
         (Some "https://signed.example/tubely/landscape/AAECAwQFBgcICQoLDA0ODxAREhMUFRYXGBkaGxwdHh8.bin")) |}
    = {| StatusCode := StatusOK; Body := VideoBody (set_VideoURL video (Some url)) |}.
Proof.
  apply (C9_reference_then_signed_url Demo.cfg Demo.env_ok Demo.request Demo.world).
  - reflexivity.
  - vm_compute. reflexivity.
  - reflexivity.
Defined.

(** ** C10: the extension of a video key *)

Lemma append_assoc (a b c : string) : (a +:+ b) +:+ c = a +:+ (b +:+ c).
Proof.
  induction a as [| x a IH]; [reflexivity |].
  change (String x ((a +:+ b) +:+ c) = String x (a +:+ (b +:+ c))). now rewrite IH.
Qed.

Lemma getExtension_table (contentType : string) :
  getExtension contentType <> "bin" ->
  contentType = "image/jpeg" \/ contentType = "image/png"
  \/ contentType = "image/gif" \/ contentType = "image/webp".
Proof.
  unfold getExtension.
  destruct (String.eqb_spec contentType "image/jpeg"); [tauto |].
  destruct (String.eqb_spec contentType "image/png"); [tauto |].
  destruct (String.eqb_spec contentType "image/gif"); [tauto |].
  destruct (String.eqb_spec contentType "image/webp"); [tauto |].
  congruence.
Qed.

(** C10: the extension looked up for [video/mp4] is the fallback "bin", the
    table having entries for four image types only; so on every successful
    upload the key the object is stored under ends in ".bin". *)
Theorem C10_video_key_ends_in_bin (cfg : apiConfig) (env : Env) (r : Request) (w : World)
    (resp : Response) :
  response (handlerUploadVideo cfg env r w) = Some resp ->
  StatusCode resp = StatusOK ->
  getExtension "video/mp4" = "bin" /\
  (forall contentType, getExtension contentType <> "bin" ->
     contentType = "image/jpeg" \/ contentType = "image/png"
     \/ contentType = "image/gif" \/ contentType = "image/webp") /\
  exists stem,
    In (CallPutObject (s3Bucket cfg) (stem +:+ ".bin"))
       (trace (handlerUploadVideo cfg env r w)) /\
    is_Some (s3 (final (handlerUploadVideo cfg env r w)) !! (s3Bucket cfg, stem +:+ ".bin")).
Proof.
  intros Hresp Hcode.
  split; [reflexivity |]. split; [exact getExtension_table |].
  destruct (upload_success cfg env r w resp Hresp Hcode)
    as (videoID & video & tempFile & data & cmdResult & first & bucket & key & url
        & _ & _ & _ & _ & _ & _ & _ & _ & _ & Hs3 & Htrace).
  cbv zeta in *.
  exists (classify (Width first) (Height first) +:+ "/" +:+
          Base64.EncodeToString (randomBytes env)).
  assert (Hkey : (classify (Width first) (Height first) +:+ "/" +:+
                  Base64.EncodeToString (randomBytes env)) +:+ ".bin"
                 = derived_key env first).
  { unfold derived_key. now rewrite !append_assoc. }
  rewrite Hkey. split.
  - rewrite Htrace. simpl. tauto.
  - rewrite Hs3, lookup_insert_eq. eauto.
Qed.

Lemma C10_video_key_witness :
  getExtension "video/mp4" = "bin" /\
  (forall contentType, getExtension contentType <> "bin" ->
     contentType = "image/jpeg" \/ contentType = "image/png"
     \/ contentType = "image/gif" \/ contentType = "image/webp") /\
  exists stem,
    In (CallPutObject (s3Bucket Demo.cfg) (stem +:+ ".bin"))
       (trace (handlerUploadVideo Demo.cfg Demo.env_ok Demo.request Demo.world)) /\
    is_Some (s3 (final (handlerUploadVideo Demo.cfg Demo.env_ok Demo.request Demo.world))
               !! (s3Bucket Demo.cfg, stem +:+ ".bin")).
Proof.
  apply (C10_video_key_ends_in_bin Demo.cfg Demo.env_ok Demo.request Demo.world
           {| StatusCode := StatusOK;
              Body := VideoBody (set_VideoURL Demo.video7
                (Some "https://signed.example/tubely/landscape/AAECAwQFBgcICQoLDA0ODxAREhMUFRYXGBkaGxwdHh8.bin")) |}).
  - vm_compute. reflexivity.
  - reflexivity.
Defined.

(** ** C7: temporary files *)

(** X14.  The staged upload never outlives the handler: a name handed out by
    [os.CreateTemp] that was free before the request is free again after it,
    on every path. *)
Lemma staged_upload_removed (cfg : apiConfig) (env : Env) (r : Request) (w : World)
    (name : string) :
  os_CreateTemp env "tubely-upload.mp4" = Ok name ->
  disk w !! name = None ->
  disk (final (handlerUploadVideo cfg env r w)) !! name = None.
Proof.
  unfold_handler. intros Hname Hfree.
  repeat branch; simplify_eq; rewrite ?lookup_delete_eq; auto.
Qed.

(** C7 fails on the code: the remux succeeds and writes its artifact, opening
    the artifact fails, and the handler returns before the removal of the
    artifact is deferred; the staged upload is removed, the artifact stays. *)
Theorem C7_remux_artifact_left_on_disk :
  let o := handlerUploadVideo Demo.cfg Demo.env_open_fails Demo.request Demo.world in
  response o = Some {| StatusCode := StatusInternalServerError;
                       Body := ErrorBody "Couldn't open fast start temp file" |}
  /\ disk Demo.world !! "/tmp/tubely-upload.mp42058201.processing" = None
  /\ disk (final o) !! "/tmp/tubely-upload.mp42058201.processing"
     = Some ["m"%byte; "p"%byte; "4"%byte]
  /\ disk (final o) !! "/tmp/tubely-upload.mp42058201" = None
  /\ trace o = [CallGetVideo 7%N;
                CallCreateTemp "/tmp/tubely-upload.mp42058201";
                CallCopy "/tmp/tubely-upload.mp42058201";
                CallSeek "/tmp/tubely-upload.mp42058201";
                CallFfmpeg "/tmp/tubely-upload.mp42058201"
                  "/tmp/tubely-upload.mp42058201.processing";
                CallOpen "/tmp/tubely-upload.mp42058201.processing";
                CallRemove "/tmp/tubely-upload.mp42058201"].
Proof. vm_compute. repeat split; reflexivity. Qed.

(** The same leak when the remuxing tool itself fails after it created its
    output file. *)
Example remux_failure_leaves_artifact :
  let o := handlerUploadVideo Demo.cfg Demo.env_remux_fails Demo.request Demo.world in
  response o = Some {| StatusCode := StatusInternalServerError;
                       Body := ErrorBody "Couldn't process video" |}
  /\ disk (final o) !! "/tmp/tubely-upload.mp42058201.processing" = Some ["m"%byte]
  /\ disk (final o) !! "/tmp/tubely-upload.mp42058201" = None.
Proof. vm_compute. repeat split; reflexivity. Qed.

(** On success both files are gone. *)
Example success_leaves_no_file :
  disk (final (handlerUploadVideo Demo.cfg Demo.env_ok Demo.request Demo.world)) = ∅.
Proof. vm_compute. reflexivity. Qed.

(** ** C8: what the probe does with unusable output *)

(** Output that does not decode is reported as an error. *)
Lemma probe_malformed_is_error (env : Env) (path : string) (s : HState) (e : error) :
  ffprobe_Run env = Ok (BadJSON e) ->
  getVideoAspectRatio env path s = (Next (Err e), log_call s (CallFfprobe path)).
Proof. intros H. unfold getVideoAspectRatio. now rewrite H. Qed.

(** Output that decodes to an empty list of streams makes [Streams[0]] panic. *)
Lemma probe_without_streams_panics (env : Env) (path : string) (s : HState) :
  ffprobe_Run env = Ok (GoodJSON {| Streams := [] |}) ->
  getVideoAspectRatio env path s
  = (Panic "runtime error: index out of range", log_call s (CallFfprobe path)).
Proof. intros H. unfold getVideoAspectRatio. now rewrite H. Qed.

(** C8 fails on the code: when the probing tool succeeds and reports zero
    streams, the probe does not return an error, it panics; the handler
    unwinds without writing a response.  (Malformed output does take the error
    branch and is answered with status 500.) *)
Theorem C8_zero_streams_panics :
  fst (getVideoAspectRatio Demo.env_no_streams "/tmp/tubely-upload.mp42058201"
         (start Demo.world))
  = Panic "runtime error: index out of range"
  /\ response (handlerUploadVideo Demo.cfg Demo.env_no_streams Demo.request Demo.world)
     = None
  /\ panicked (handlerUploadVideo Demo.cfg Demo.env_no_streams Demo.request Demo.world)
     = true
  /\ response (handlerUploadVideo Demo.cfg Demo.env_bad_json Demo.request Demo.world)
     = Some {| StatusCode := StatusInternalServerError;
               Body := ErrorBody "Couldn't get video aspect ratio" |}.
Proof. vm_compute. repeat split; reflexivity. Qed.

(** * Further properties of the embedded functions *)

(** ** [dbVideoToSignedVideo]: reading the persisted reference back *)

(** X1.  A reference whose two parts contain no comma is presigned for exactly
    those parts with an expiry of ten minutes; the record comes back with only
    its location replaced, and a presigning error comes back as the error. *)
Theorem signed_video_round_trip (env : Env) (video : Video) (bucket key : string)
    (s : HState) :
  has_char ","%char bucket = false ->
  has_char ","%char key = false ->
  VideoURL video = Some (bucket +:+ "," +:+ key) ->
  dbVideoToSignedVideo env video s
  = (Next match s3_PresignGetObject env bucket key (10 * time_Minute) with
          | Ok url => Ok {| ID := ID video; UserID := UserID video;
                            ThumbnailURL := ThumbnailURL video; VideoURL := Some url |}
          | Err e => Err e
          end,
     log_call s (CallPresign bucket key (10 * time_Minute))).
Proof.
  intros Hb Hk Hurl. unfold dbVideoToSignedVideo. rewrite Hurl.
  rewrite (Split_reference bucket key Hb Hk).
  unfold mbind, Handler_bind, index, generatePresignedURL, mret, Handler_ret.
  cbn [nth_error].
  destruct (s3_PresignGetObject env bucket key (10 * time_Minute)); reflexivity.
Qed.

Lemma signed_video_round_trip_witness :
  dbVideoToSignedVideo Demo.env_ok DemoThumbnail.published (start Demo.world)
  = (Next (Ok {| ID := 7%N; UserID := Demo.alice; ThumbnailURL := None;
                 VideoURL := Some "https://signed.example/tubely/landscape/abc.bin" |}),
     log_call (start Demo.world)
       (CallPresign "tubely" "landscape/abc.bin" (10 * time_Minute))).
Proof.
  apply (signed_video_round_trip Demo.env_ok DemoThumbnail.published
           "tubely" "landscape/abc.bin" (start Demo.world)); reflexivity.
Defined.

(** X2.  A reference without any comma (a plain URL, say) makes [params[1]] panic:
    no error is returned and nothing is presigned. *)
Theorem signed_video_panics_without_comma (env : Env) (video : Video) (url : string)
    (s : HState) :
  has_char ","%char url = false ->
  VideoURL video = Some url ->
  dbVideoToSignedVideo env video s = (Panic "runtime error: index out of range", s).
Proof.
  intros Hc Hurl. unfold dbVideoToSignedVideo. rewrite Hurl.
  rewrite (Split_without_sep url _ Hc). reflexivity.
Qed.

Lemma signed_video_panics_witness :
  dbVideoToSignedVideo Demo.env_ok
    (set_VideoURL Demo.video7 (Some "https://cdn.example/v/7.mp4")) (start Demo.world)
  = (Panic "runtime error: index out of range", start Demo.world).
Proof.
  apply (signed_video_panics_without_comma Demo.env_ok
           (set_VideoURL Demo.video7 (Some "https://cdn.example/v/7.mp4"))
           "https://cdn.example/v/7.mp4" (start Demo.world)); reflexivity.
Defined.

Lemma Split_two_fields (a b rest : string) :
  has_char ","%char a = false -> has_char ","%char b = false ->
  strings_Split (a +:+ "," +:+ b +:+ "," +:+ rest) ","%char
  = a :: b :: strings_Split rest ","%char.
Proof.
  intros Ha Hb.
  change ("," +:+ b +:+ "," +:+ rest) with (String ","%char (b +:+ String ","%char rest)).
  now rewrite !Split_at_sep.
Qed.

(** X3.  The reference is cut at every comma, not at the first one only: when the
    key itself contains a comma, what is presigned is the part of the key
    before that comma. *)
Theorem signed_video_cuts_key_at_comma (env : Env) (video : Video)
    (bucket key rest : string) (s : HState) :
  has_char ","%char bucket = false ->
  has_char ","%char key = false ->
  VideoURL video = Some (bucket +:+ "," +:+ key +:+ "," +:+ rest) ->
  snd (dbVideoToSignedVideo env video s)
  = log_call s (CallPresign bucket key (10 * time_Minute)).
Proof.
  intros Hb Hk Hurl. unfold dbVideoToSignedVideo. rewrite Hurl.
  rewrite (Split_two_fields bucket key rest Hb Hk).
  unfold mbind, Handler_bind, index, generatePresignedURL, mret, Handler_ret.
  cbn [nth_error].
  destruct (s3_PresignGetObject env bucket key (10 * time_Minute)); reflexivity.
Qed.

Lemma signed_video_cuts_key_witness :
  snd (dbVideoToSignedVideo Demo.env_ok
         (set_VideoURL Demo.video7 (Some "tubely,other/a,b.bin")) (start Demo.world))
  = log_call (start Demo.world) (CallPresign "tubely" "other/a" (10 * time_Minute)).
Proof.
  apply (signed_video_cuts_key_at_comma Demo.env_ok
           (set_VideoURL Demo.video7 (Some "tubely,other/a,b.bin"))
           "tubely" "other/a" "b.bin" (start Demo.world)); reflexivity.
Defined.

(** ** [getVideoAspectRatio]: degenerate geometry *)

Module Degenerate.

Lemma of_int_zero : Prim2SF (Float64.of_int 0) = S754_zero false.
Proof. vm_compute. reflexivity. Qed.

(** Dividing by a zero height gives an infinity or a NaN, whatever the width;
    neither is within the tolerance of a centre. *)
Lemma near_over_zero (x c : float) :
  c = Float64.c_16_9 \/ c = Float64.c_9_16 ->
  Float64.near (x / Float64.of_int 0) c = false.
Proof.
  intros Hc. rewrite Rounding.near_spec, div_spec, of_int_zero.
  assert (Hdec : Prim2SF c = Rounding.c_16_9_SF \/ Prim2SF c = Rounding.c_9_16_SF).
  { destruct Hc as [-> | ->];
      [left; apply Rounding.c_16_9_decoded | right; apply Rounding.c_9_16_decoded]. }
  destruct (Prim2SF x) as [s | s | | s m e]; cbv [SF64div SFdiv];
    destruct Hdec as [-> | ->]; try destruct s; vm_compute; reflexivity.
Qed.

(** A zero width gives a zero or a NaN, whatever the height. *)
Lemma near_zero_over (y c : float) :
  c = Float64.c_16_9 \/ c = Float64.c_9_16 ->
  Float64.near (Float64.of_int 0 / y) c = false.
Proof.
  intros Hc. rewrite Rounding.near_spec, div_spec, of_int_zero.
  assert (Hdec : Prim2SF c = Rounding.c_16_9_SF \/ Prim2SF c = Rounding.c_9_16_SF).
  { destruct Hc as [-> | ->];
      [left; apply Rounding.c_16_9_decoded | right; apply Rounding.c_9_16_decoded]. }
  destruct (Prim2SF y) as [s | s | | s m e]; cbv [SF64div SFdiv];
    destruct Hdec as [-> | ->]; try destruct s; vm_compute; reflexivity.
Qed.

End Degenerate.

(** X4.  A first stream without geometry (zero width or zero height, as an audio
    stream decodes) is labelled "other", whatever the other dimension and
    whatever streams follow: the division by zero is a floating-point one and
    does not panic. *)
Theorem probe_degenerate_stream_is_other (env : Env) (path : string) (s : HState)
    (first : Stream) (rest : list Stream) :
  ffprobe_Run env = Ok (GoodJSON {| Streams := first :: rest |}) ->
  Width first = 0 \/ Height first = 0 ->
  getVideoAspectRatio env path s = (Next (Ok "other"), log_call s (CallFfprobe path)).
Proof.
  intros Hrun Hzero.
  rewrite (getVideoAspectRatio_first_stream _ _ _ _ _ Hrun).
  do 3 f_equal. unfold classify, ratio.
  destruct Hzero as [-> | ->].
  - rewrite !Degenerate.near_zero_over by auto. reflexivity.
  - rewrite !Degenerate.near_over_zero by auto. reflexivity.
Qed.

Lemma probe_degenerate_stream_witness :
  getVideoAspectRatio
    (Demo.env Demo.remuxed None
       (Ok (GoodJSON {| Streams := [{| Width := 0; Height := 0 |};
                                    {| Width := 1920; Height := 1080 |}] |}))
       None None (Ok "https://signed.example/"))
    "/tmp/upload" (start Demo.world)
  = (Next (Ok "other"), log_call (start Demo.world) (CallFfprobe "/tmp/upload")).
Proof.
  apply (probe_degenerate_stream_is_other _ "/tmp/upload" (start Demo.world)
           {| Width := 0; Height := 0 |} [{| Width := 1920; Height := 1080 |}]).
  - reflexivity.
  - left. reflexivity.
Defined.

(** ** [processVideoForFastStart]: the paths of the remux *)

Lemma append_length (a b : string) :
  String.length (a +:+ b) = (String.length a + String.length b)%nat.
Proof.
  induction a as [| c a IH]; [reflexivity |].
  change (S (String.length (a +:+ b)) = S (String.length a + String.length b)).
  now rewrite IH.
Qed.

Lemma processing_path_differs (filepath : string) : filepath +:+ ".processing" <> filepath.
Proof.
  intros H. apply (f_equal String.length) in H. rewrite append_length in H.
  simpl in H. lia.
Qed.


(** ** [getExtension]: the table *)

(** X6.  The extension is one of five; it is the fallback "bin" exactly when the
    type is none of the four image types, spelled as in the table (the
    comparison is exact, so another case or a parameter gives "bin"); two
    types with the same extension other than "bin" are the same type; and no
    extension contains a dot, a slash or a comma, so a derived name has one
    extension and adds no path element. *)
Theorem getExtension_table_exact (contentType : string) :
  In (getExtension contentType) ["jpg"; "png"; "gif"; "webp"; "bin"] /\
  (getExtension contentType = "bin" <->
   ~ In contentType ["image/jpeg"; "image/png"; "image/gif"; "image/webp"]) /\
  (forall other, getExtension contentType = getExtension other ->
                 getExtension contentType <> "bin" -> contentType = other) /\
  has_char "."%char (getExtension contentType) = false /\
  has_char "/"%char (getExtension contentType) = false /\
  has_char ","%char (getExtension contentType) = false.
Proof.
  assert (Hcases : forall ct,
    (ct = "image/jpeg" /\ getExtension ct = "jpg") \/
    (ct = "image/png" /\ getExtension ct = "png") \/
    (ct = "image/gif" /\ getExtension ct = "gif") \/
    (ct = "image/webp" /\ getExtension ct = "webp") \/
    (~ In ct ["image/jpeg"; "image/png"; "image/gif"; "image/webp"]
     /\ getExtension ct = "bin")).
  { intros ct. unfold getExtension.
    destruct (String.eqb_spec ct "image/jpeg"); [now left |].
    destruct (String.eqb_spec ct "image/png"); [right; now left |].
    destruct (String.eqb_spec ct "image/gif"); [do 2 right; now left |].
    destruct (String.eqb_spec ct "image/webp"); [do 3 right; now left |].
    do 4 right. split; [| reflexivity]. simpl. intuition congruence. }
  split; [| split; [| split]].
  - destruct (Hcases contentType) as [[_ ->] | [[_ ->] | [[_ ->] | [[_ ->] | [_ ->]]]]];
      simpl; tauto.
  - destruct (Hcases contentType) as [[-> H] | [[-> H] | [[-> H] | [[-> H] | [Hn H]]]]];
      rewrite H; split; intros; try discriminate; try tauto;
      exfalso; simpl in *; tauto.
  - intros other Heq Hbin.
    destruct (Hcases contentType) as [[-> H] | [[-> H] | [[-> H] | [[-> H] | [_ H]]]]];
      [| | | | congruence];
      rewrite H in Heq;
      destruct (Hcases other) as [[-> H'] | [[-> H'] | [[-> H'] | [[-> H'] | [_ H']]]]];
      rewrite H' in Heq; try discriminate; reflexivity.
  - destruct (Hcases contentType) as [[_ ->] | [[_ ->] | [[_ ->] | [[_ ->] | [_ ->]]]]];
      repeat split; reflexivity.
Qed.

(** ** The upload handler on every path *)

Lemma Split_nonempty (s : string) (sep : ascii) : strings_Split s sep <> [].
Proof.
  destruct s as [| c s]; simpl; [discriminate |].
  destruct (Ascii.eqb c sep); [discriminate |].
  destruct (strings_Split s sep); discriminate.
Qed.

(** A string with a comma in it splits into two fields at least. *)
Lemma Split_reference_fields (a b : string) :
  exists x y l, strings_Split (a +:+ "," +:+ b) ","%char = x :: y :: l.
Proof.
  change ("," +:+ b) with (String ","%char b).
  induction a as [| c a (x & y & l & IH)].
  - change ("" +:+ String ","%char b) with (String ","%char b).
    cbn [strings_Split]. rewrite Ascii.eqb_refl.
    destruct (strings_Split b ","%char) as [| y l] eqn:Hb;
      [now apply Split_nonempty in Hb | eauto].
  - change (String c a +:+ String ","%char b) with (String c (a +:+ String ","%char b)).
    cbn [strings_Split]. rewrite IH.
    destruct (Ascii.eqb c ","%char); eauto.
Qed.

Ltac split_has_fields :=
  match goal with
  | H : nth_error (strings_Split (?a +:+ "," +:+ ?b) _) _ = None |- _ =>
      let x := fresh in let y := fresh in let l := fresh in let E := fresh in
      destruct (Split_reference_fields a b) as (x & y & l & E);
      rewrite E in H; discriminate H
  end.

(** X7.  The handler writes a response on every path that does not panic, and the
    only panic is the probe's on an empty list of streams: the signing step
    cannot panic on the reference the handler has just built. *)
Theorem upload_responds_unless_probe_panics (cfg : apiConfig) (env : Env) (r : Request)
    (w : World) :
  (panicked (handlerUploadVideo cfg env r w) = false ->
   exists resp, response (handlerUploadVideo cfg env r w) = Some resp) /\
  (panicked (handlerUploadVideo cfg env r w) = true ->
   response (handlerUploadVideo cfg env r w) = None /\
   ffprobe_Run env = Ok (GoodJSON {| Streams := [] |})).
Proof.
  unfold_handler.
  repeat branch; try split_has_fields;
    (split; intros Hp; [try discriminate Hp; eauto | try discriminate Hp]).
  all: split; [reflexivity |].
  all: match goal with
       | H : nth_error (Streams ?v) _ = None |- _ =>
           destruct v as [[| ? ?]]; [reflexivity | discriminate H]
       end.
Qed.

Ltac map_lookups :=
  repeat first
    [ rewrite lookup_delete_eq
    | rewrite lookup_delete_ne by congruence
    | rewrite lookup_insert_ne by congruence ].

(** X8.  The remuxed artifact can only be left behind by the two exits that come
    before its removal is deferred: on every other path, panic included, a
    free artifact path is free again after the request. *)
Theorem remux_artifact_left_only_on_two_exits (cfg : apiConfig) (env : Env) (r : Request)
    (w : World) (name : string) :
  os_CreateTemp env "tubely-upload.mp4" = Ok name ->
  disk w !! (name +:+ ".processing") = None ->
  response (handlerUploadVideo cfg env r w)
  <> Some {| StatusCode := StatusInternalServerError;
             Body := ErrorBody "Couldn't process video" |} ->
  response (handlerUploadVideo cfg env r w)
  <> Some {| StatusCode := StatusInternalServerError;
             Body := ErrorBody "Couldn't open fast start temp file" |} ->
  disk (final (handlerUploadVideo cfg env r w)) !! (name +:+ ".processing") = None.
Proof.
  pose proof (processing_path_differs name) as Hne.
  unfold_handler. intros Hname Hfree.
  repeat branch; intros; simplify_eq; try congruence; map_lookups; auto.
Qed.

Lemma remux_artifact_witness :
  disk (final (handlerUploadVideo Demo.cfg Demo.env_put_fails Demo.request Demo.world))
    !! ("/tmp/tubely-upload.mp42058201" +:+ ".processing") = None.
Proof.
  apply (remux_artifact_left_only_on_two_exits Demo.cfg Demo.env_put_fails Demo.request
           Demo.world "/tmp/tubely-upload.mp42058201").
  - reflexivity.
  - reflexivity.
  - vm_compute. discriminate.
  - vm_compute. discriminate.
Defined.

(** X9.  The handler writes at most one object, into the configured bucket and
    under the key it derived; every other entry of the object store is as it
    was, and nothing is ever deleted from it. *)
Theorem upload_stores_at_most_one_object (cfg : apiConfig) (env : Env) (r : Request)
    (w : World) :
  s3 (final (handlerUploadVideo cfg env r w)) = s3 w \/
  exists cmdResult first obj,
    ffprobe_Run env = Ok (GoodJSON cmdResult) /\
    nth_error (Streams cmdResult) 0 = Some first /\
    s3 (final (handlerUploadVideo cfg env r w))
    = <[(s3Bucket cfg, derived_key env first) := obj]> (s3 w) /\
    ObjectContentType obj = "video/mp4".
Proof.
  unfold derived_key. unfold_handler.
  repeat branch; try (left; reflexivity);
    repeat match goal with
           | H : String.eqb _ _ = true |- _ => apply String.eqb_eq in H; subst
           end;
    right; do 3 eexists; repeat (split; [eassumption || reflexivity |]); reflexivity.
Qed.

Lemma find_map_update (rows : list Video) (vid id : UUID) (video stored : Video) :
  find (fun v => N.eqb (ID v) vid) rows = Some video ->
  ID stored = ID video ->
  find (fun v => N.eqb (ID v) id)
    (map (fun v => if N.eqb (ID v) (ID stored) then stored else v) rows)
  = if N.eqb id vid then Some stored else find (fun v => N.eqb (ID v) id) rows.
Proof.
  intros Hfind Hid.
  assert (Hvid : ID video = vid).
  { apply find_some in Hfind as [_ H]. now apply N.eqb_eq in H. }
  destruct (N.eqb_spec id vid) as [-> | Hne].
  - now apply find_after_update with (video := video).
  - clear Hfind. induction rows as [| a rows IH]; [reflexivity |].
    cbn [find map].
    destruct (N.eqb_spec (ID a) (ID stored)) as [Heq | Hneq].
    + replace (N.eqb (ID stored) id) with false by (symmetry; apply N.eqb_neq; congruence).
      replace (N.eqb (ID a) id) with false by (symmetry; apply N.eqb_neq; congruence).
      exact IH.
    + destruct (N.eqb (ID a) id); [reflexivity | exact IH].
Qed.

Lemma find_map_set_location (rows : list Video) (vid id : UUID) (video : Video)
    (url : option string) :
  find (fun v => N.eqb (ID v) vid) rows = Some video ->
  find (fun v => N.eqb (ID v) id)
    (map (fun v =>
            if N.eqb (ID v)
                 (ID {| ID := ID video; UserID := UserID video;
                        ThumbnailURL := ThumbnailURL video; VideoURL := url |})
            then {| ID := ID video; UserID := UserID video;
                    ThumbnailURL := ThumbnailURL video; VideoURL := url |}
            else v) rows)
  = if N.eqb id vid
    then Some {| ID := ID video; UserID := UserID video;
                 ThumbnailURL := ThumbnailURL video; VideoURL := url |}
    else find (fun v => N.eqb (ID v) id) rows.
Proof. intros H. now apply find_map_update with (video := video). Qed.

(** X10.  An upload can change one thing in the table: the playback location of the
    record it was made for.  Every record keeps its identifier, owner and
    thumbnail; records under another identifier are found unchanged; no row is
    added or removed. *)
Theorem upload_changes_only_the_location (cfg : apiConfig) (env : Env) (r : Request)
    (w : World) (id : UUID) :
  identity_of <$> find (fun v => N.eqb (ID v) id) (db (final (handlerUploadVideo cfg env r w)))
  = identity_of <$> find (fun v => N.eqb (ID v) id) (db w) /\
  (uuid_Parse env (PathValue_videoID r) <> Ok id ->
   find (fun v => N.eqb (ID v) id) (db (final (handlerUploadVideo cfg env r w)))
   = find (fun v => N.eqb (ID v) id) (db w)) /\
  length (db (final (handlerUploadVideo cfg env r w))) = length (db w).
Proof.
  unfold_handler.
  repeat branch; try (repeat split; reflexivity).
  all: match goal with
       | H : find _ _ = Some ?v |- _ =>
           rewrite !(find_map_set_location _ _ id v _ H)
       end.
  all: rewrite length_map.
  all: destruct (N.eqb_spec id a) as [-> | Hne];
    try match goal with H : find (fun v => N.eqb (ID v) _) _ = Some _ |- _ => rewrite H end;
    (split; [| split]); intros; first [reflexivity | congruence].
Qed.

(** X11.  When the record update fails the object has already been stored and stays
    stored: the table is unchanged, the object store holds the new object
    under the derived key, and no URL is presigned. *)
Theorem update_failure_leaves_stored_object (cfg : apiConfig) (env : Env) (r : Request)
    (w : World) :
  response (handlerUploadVideo cfg env r w)
  = Some {| StatusCode := StatusInternalServerError;
            Body := ErrorBody "Couldn't update video" |} ->
  db (final (handlerUploadVideo cfg env r w)) = db w /\
  (exists cmdResult first obj,
     ffprobe_Run env = Ok (GoodJSON cmdResult) /\
     nth_error (Streams cmdResult) 0 = Some first /\
     s3 (final (handlerUploadVideo cfg env r w))
     = <[(s3Bucket cfg, derived_key env first) := obj]> (s3 w)) /\
  (forall bucket key expires,
     ~ In (CallPresign bucket key expires) (trace (handlerUploadVideo cfg env r w))).
Proof.
  unfold derived_key. unfold_handler.
  repeat branch; intros H; try discriminate H;
    repeat match goal with
           | H : String.eqb _ _ = true |- _ => apply String.eqb_eq in H; subst
           end;
    (split; [reflexivity |]);
    (split;
     [ do 3 eexists; repeat (split; [eassumption || reflexivity |]); reflexivity
     | intros bucket key expires Hin; simpl in Hin; intuition discriminate ]).
Qed.

Lemma update_failure_witness :
  db (final (handlerUploadVideo Demo.cfg Demo.env_update_fails Demo.request Demo.world))
  = db Demo.world /\
  (exists cmdResult first obj,
     ffprobe_Run Demo.env_update_fails = Ok (GoodJSON cmdResult) /\
     nth_error (Streams cmdResult) 0 = Some first /\
     s3 (final (handlerUploadVideo Demo.cfg Demo.env_update_fails Demo.request Demo.world))
     = <[(s3Bucket Demo.cfg, derived_key Demo.env_update_fails first) := obj]>
         (s3 Demo.world)) /\
  (forall bucket key expires,
     ~ In (CallPresign bucket key expires)
          (trace (handlerUploadVideo Demo.cfg Demo.env_update_fails Demo.request
                    Demo.world))).
Proof.
  apply (update_failure_leaves_stored_object Demo.cfg Demo.env_update_fails Demo.request
           Demo.world).
  vm_compute. reflexivity.
Defined.

(** X12.  A response of a 4xx status comes before any effect: the world is exactly
    as it was, and no call was made besides, at most, the load of the record. *)
Theorem client_error_has_no_effect (cfg : apiConfig) (env : Env) (r : Request) (w : World)
    (resp : Response) :
  response (handlerUploadVideo cfg env r w) = Some resp ->
  400 <= StatusCode resp < 500 ->
  final (handlerUploadVideo cfg env r w) = w /\
  (trace (handlerUploadVideo cfg env r w) = []
   \/ exists videoID, trace (handlerUploadVideo cfg env r w) = [CallGetVideo videoID]).
Proof.
  unfold_handler.
  repeat branch; intros H.
  all: try (inversion H; fail).
  all: inversion H; subst; status_values; intros.
  all: try lia.
  all: split; eauto.
Qed.

Lemma client_error_witness :
  final (handlerUploadVideo Demo.cfg Demo.env_ok Demo.request_png Demo.world) = Demo.world /\
  (trace (handlerUploadVideo Demo.cfg Demo.env_ok Demo.request_png Demo.world) = []
   \/ exists videoID,
        trace (handlerUploadVideo Demo.cfg Demo.env_ok Demo.request_png Demo.world)
        = [CallGetVideo videoID]).
Proof.
  apply (client_error_has_no_effect Demo.cfg Demo.env_ok Demo.request_png Demo.world
           {| StatusCode := StatusBadRequest; Body := ErrorBody "Unsupported file type" |}).
  - vm_compute. reflexivity.
  - cbv [StatusCode StatusBadRequest]. lia.
Defined.

(** X13.  What is published is the remuxed artifact, not the bytes uploaded: on a
    successful upload for which the tool wrote its output, the stored object
    holds exactly those bytes, typed [video/mp4]; and the probe was run on the
    staged upload, after the remux and before the object was stored. *)
Theorem success_publishes_the_artifact (cfg : apiConfig) (env : Env) (r : Request)
    (w : World) (resp : Response) (data : list Byte.byte) :
  response (handlerUploadVideo cfg env r w) = Some resp ->
  StatusCode resp = StatusOK ->
  ffmpeg_output (ffmpeg_Run env) = Some data ->
  exists cmdResult first tempFile before between after,
    ffprobe_Run env = Ok (GoodJSON cmdResult) /\
    nth_error (Streams cmdResult) 0 = Some first /\
    s3 (final (handlerUploadVideo cfg env r w)) !! (s3Bucket cfg, derived_key env first)
    = Some {| ObjectBody := data; ObjectContentType := "video/mp4" |} /\
    trace (handlerUploadVideo cfg env r w)
    = (before ++ CallFfmpeg tempFile (tempFile +:+ ".processing")
         :: between ++ CallFfprobe tempFile
         :: CallPutObject (s3Bucket cfg) (derived_key env first) :: after)%list.
Proof.
  unfold derived_key. unfold_handler.
  repeat branch; intros H; inversion H; subst; status_values; intros; try discriminate;
    repeat match goal with
           | H : String.eqb _ _ = true |- _ => apply String.eqb_eq in H; subst
           end;
    simplify_eq.
  all: match goal with
       | H : _ !! _ = Some _ |- _ => rewrite lookup_insert_eq in H; injection H as <-
       end.
  all: eexists _, _, _, [_; _; _; _], [_], _.
  all: repeat (split; [eassumption || reflexivity || apply lookup_insert_eq |]); reflexivity.
Qed.

Lemma success_publishes_witness :
  exists cmdResult first tempFile before between after,
    ffprobe_Run Demo.env_ok = Ok (GoodJSON cmdResult) /\
    nth_error (Streams cmdResult) 0 = Some first /\
    s3 (final (handlerUploadVideo Demo.cfg Demo.env_ok Demo.request Demo.world))
      !! (s3Bucket Demo.cfg, derived_key Demo.env_ok first)
    = Some {| ObjectBody := ["m"%byte; "p"%byte; "4"%byte];
              ObjectContentType := "video/mp4" |} /\
    trace (handlerUploadVideo Demo.cfg Demo.env_ok Demo.request Demo.world)
    = (before ++ CallFfmpeg tempFile (tempFile +:+ ".processing")
         :: between ++ CallFfprobe tempFile
         :: CallPutObject (s3Bucket Demo.cfg) (derived_key Demo.env_ok first) :: after)%list.
Proof.
  apply (success_publishes_the_artifact Demo.cfg Demo.env_ok Demo.request Demo.world
           {| StatusCode := StatusOK;
              Body := VideoBody (set_VideoURL Demo.video7
                (Some "https://signed.example/tubely/landscape/AAECAwQFBgcICQoLDA0ODxAREhMUFRYXGBkaGxwdHh8.bin")) |}).
  - vm_compute. reflexivity.
  - reflexivity.
  - reflexivity.
Defined.

Lemma staged_upload_witness :
  disk (final (handlerUploadVideo Demo.cfg Demo.env_open_fails Demo.request Demo.world))
    !! "/tmp/tubely-upload.mp42058201" = None.
Proof.
  apply (staged_upload_removed Demo.cfg Demo.env_open_fails Demo.request Demo.world
           "/tmp/tubely-upload.mp42058201"); reflexivity.
Defined.


(** ** The thumbnail handler on every path *)

(** Unfolds the thumbnail handler down to the calls of the environment; the
    parsing of the form stays folded. *)
Ltac unfold_thumbnail :=
  cbv beta iota zeta delta
    [handlerUploadThumbnail run finish start handlerUploadThumbnail_body
     mbind mret Handler_bind Handler_ret orFail return_ defer
     respondWithError respondWithJSON GetVideo UpdateVideo Copy Create
     run_deferred log_call set_world set_db set_disk set_s3
     set_ThumbnailURL world calls written deferred db disk s3
     response panicked final trace fold_left app fst snd negb andb] in *.

(** X15.  A response of status 200 is only reached through every step; the run is
    then determined by the record loaded, the part named [thumbnail] and its
    declared type, which is one of the two accepted: the bytes of the part are
    in a file named after the random bytes with the extension of that type,
    under the assets root; the record persisted and returned has the URL of
    that name on the local port as its thumbnail and everything else as
    before; the object store is untouched. *)
Theorem thumbnail_success (cfg : apiConfig) (assets : assetsConfig) (env : Env)
    (fs : AssetsEnv) (r : Request) (w : World) (resp : Response) :
  response (handlerUploadThumbnail cfg assets env fs r w) = Some resp ->
  StatusCode resp = StatusOK ->
  exists videoID video formFile mediaType,
    find (fun v => N.eqb (ID v) videoID) (db w) = Some video /\
    FormFile r "thumbnail" = Ok formFile /\
    mime_ParseMediaType env (PartContentType formFile) = Ok mediaType /\
    ((mediaType = "image/jpeg" /\ getExtension mediaType = "jpg")
     \/ (mediaType = "image/png" /\ getExtension mediaType = "png")) /\
    let name := thumbnail_name env mediaType in
    let path := filepath_Join fs (assetsRoot assets) name in
    let stored :=
      {| ID := ID video; UserID := UserID video;
         ThumbnailURL := Some ("http://localhost:" +:+ port assets +:+ "/assets/" +:+ name);
         VideoURL := VideoURL video |} in
    resp = {| StatusCode := StatusOK; Body := VideoBody stored |} /\
    db (final (handlerUploadThumbnail cfg assets env fs r w))
    = map (fun v => if N.eqb (ID v) (ID stored) then stored else v) (db w) /\
    disk (final (handlerUploadThumbnail cfg assets env fs r w))
    = <[path := Content formFile]> (<[path := []]> (disk w)) /\
    s3 (final (handlerUploadThumbnail cfg assets env fs r w)) = s3 w /\
    trace (handlerUploadThumbnail cfg assets env fs r w)
    = [CallGetVideo videoID; CallCopy path; CallUpdateVideo stored].
Proof.
  unfold thumbnail_name. unfold_thumbnail.
  repeat branch; intros H; try (inversion H; fail).
  all: inversion H; subst; status_values; intros; try discriminate.
  all: repeat match goal with
              | H : String.eqb _ _ = true |- _ => apply String.eqb_eq in H; subst
              end.
  all: do 4 eexists; repeat (split; [eassumption || reflexivity || (left; split; reflexivity) || (right; split; reflexivity) |]); reflexivity.
Qed.

Lemma thumbnail_success_witness :
  exists videoID video formFile mediaType,
    find (fun v => N.eqb (ID v) videoID) (db DemoThumbnail.world) = Some video /\
    FormFile DemoThumbnail.request "thumbnail" = Ok formFile /\
    mime_ParseMediaType Demo.env_ok (PartContentType formFile) = Ok mediaType /\
    ((mediaType = "image/jpeg" /\ getExtension mediaType = "jpg")
     \/ (mediaType = "image/png" /\ getExtension mediaType = "png")) /\
    let name := thumbnail_name Demo.env_ok mediaType in
    let path := filepath_Join (DemoThumbnail.fs None) (assetsRoot DemoThumbnail.assets) name in
    let stored :=
      {| ID := ID video; UserID := UserID video;
         ThumbnailURL :=
           Some ("http://localhost:" +:+ port DemoThumbnail.assets +:+ "/assets/" +:+ name);
         VideoURL := VideoURL video |} in
    {| StatusCode := StatusOK;
       Body := VideoBody
         {| ID := 7%N; UserID := Demo.alice;
            ThumbnailURL :=
              Some "http://localhost:8091/assets/AAECAwQFBgcICQoLDA0ODxAREhMUFRYXGBkaGxwdHh8.png";
            VideoURL := Some "tubely,landscape/abc.bin" |} |}
    = {| StatusCode := StatusOK; Body := VideoBody stored |} /\
    db (final (handlerUploadThumbnail Demo.cfg DemoThumbnail.assets Demo.env_ok
                 (DemoThumbnail.fs None) DemoThumbnail.request DemoThumbnail.world))
    = map (fun v => if N.eqb (ID v) (ID stored) then stored else v) (db DemoThumbnail.world) /\
    disk (final (handlerUploadThumbnail Demo.cfg DemoThumbnail.assets Demo.env_ok
                   (DemoThumbnail.fs None) DemoThumbnail.request DemoThumbnail.world))
    = <[path := Content formFile]> (<[path := []]> (disk DemoThumbnail.world)) /\
    s3 (final (handlerUploadThumbnail Demo.cfg DemoThumbnail.assets Demo.env_ok
                 (DemoThumbnail.fs None) DemoThumbnail.request DemoThumbnail.world))
    = s3 DemoThumbnail.world /\
    trace (handlerUploadThumbnail Demo.cfg DemoThumbnail.assets Demo.env_ok
             (DemoThumbnail.fs None) DemoThumbnail.request DemoThumbnail.world)
    = [CallGetVideo videoID; CallCopy path; CallUpdateVideo stored].
Proof.
  apply (thumbnail_success Demo.cfg DemoThumbnail.assets Demo.env_ok (DemoThumbnail.fs None)
           DemoThumbnail.request DemoThumbnail.world).
  - vm_compute. reflexivity.
  - reflexivity.
Defined.

(** X16.  The thumbnail handler never panics and always writes a response; it never
    touches the object store, and it never removes a file: whatever path held
    a file before the request holds one after it. *)
Theorem thumbnail_never_panics_nor_removes (cfg : apiConfig) (assets : assetsConfig)
    (env : Env) (fs : AssetsEnv) (r : Request) (w : World) :
  panicked (handlerUploadThumbnail cfg assets env fs r w) = false /\
  (exists resp, response (handlerUploadThumbnail cfg assets env fs r w) = Some resp) /\
  s3 (final (handlerUploadThumbnail cfg assets env fs r w)) = s3 w /\
  (forall path, is_Some (disk w !! path) ->
     is_Some (disk (final (handlerUploadThumbnail cfg assets env fs r w)) !! path)).
Proof.
  unfold_thumbnail.
  repeat branch; (split; [reflexivity |]); (split; [eauto |]); (split; [reflexivity |]);
    intros path Hpath; auto;
    repeat match goal with
           | |- is_Some (<[?p := _]> _ !! path) =>
               destruct (decide (p = path)) as [-> | ?];
               [rewrite lookup_insert_eq; eauto | rewrite lookup_insert_ne by assumption]
           end; auto.
Qed.

(** X17.  Every failure response of the thumbnail handler leaves the table of
    records as it was: the record update is its last step. *)
Theorem thumbnail_failure_leaves_record (cfg : apiConfig) (assets : assetsConfig)
    (env : Env) (fs : AssetsEnv) (r : Request) (w : World) (resp : Response) :
  response (handlerUploadThumbnail cfg assets env fs r w) = Some resp ->
  StatusCode resp <> StatusOK ->
  db (final (handlerUploadThumbnail cfg assets env fs r w)) = db w.
Proof.
  unfold_thumbnail.
  repeat branch; try reflexivity;
    intros H; inversion H; subst; status_values; intros; congruence.
Qed.

Lemma thumbnail_failure_witness :
  db (final (handlerUploadThumbnail Demo.cfg DemoThumbnail.assets Demo.env_update_fails
               (DemoThumbnail.fs None) DemoThumbnail.request DemoThumbnail.world))
  = db DemoThumbnail.world.
Proof.
  apply (thumbnail_failure_leaves_record Demo.cfg DemoThumbnail.assets Demo.env_update_fails
           (DemoThumbnail.fs None) DemoThumbnail.request DemoThumbnail.world
           {| StatusCode := StatusInternalServerError;
              Body := ErrorBody "Couldn't update video" |}).
  - vm_compute. reflexivity.
  - discriminate.
Defined.

(** X18.  Only JPEG and PNG are accepted: a part declared as any other type, GIF and
    WebP of the extension table included, is rejected with status 400 before a
    file is created; the world is unchanged and the only call made is the load
    of the record. *)
Theorem thumbnail_other_type_rejected (cfg : apiConfig) (assets : assetsConfig)
    (env : Env) (fs : AssetsEnv) (r : Request) (w : World)
    (videoID : UUID) (token : string) (video : Video) (formFile : Part)
    (mediaType : string) :
  uuid_Parse env (PathValue_videoID r) = Ok videoID ->
  auth_GetBearerToken env (Header r) = Ok token ->
  auth_ValidateJWT env token (jwtSecret cfg) = Ok (UserID video) ->
  ParseMultipartForm r (Z.shiftl 10 20) = None ->
  FormFile r "thumbnail" = Ok formFile ->
  find (fun v => N.eqb (ID v) videoID) (db w) = Some video ->
  mime_ParseMediaType env (PartContentType formFile) = Ok mediaType ->
  mediaType <> "image/jpeg" ->
  mediaType <> "image/png" ->
  handlerUploadThumbnail cfg assets env fs r w
  = {| response := Some {| StatusCode := StatusBadRequest;
                           Body := ErrorBody "Unsupported file type" |};
       panicked := false;
       final := w;
       trace := [CallGetVideo videoID] |}.
Proof.
  intros Hid Htoken Hjwt Hparse Hform Hfind Hmime Hjpeg Hpng.
  unfold handlerUploadThumbnail, run, handlerUploadThumbnail_body.
  cbv beta iota zeta delta
    [mbind mret Handler_bind Handler_ret orFail return_ defer respondWithError
     GetVideo start finish run_deferred log_call fold_left app fst snd negb andb
     world calls written deferred response panicked final trace].
  rewrite Hid, Htoken, Hjwt, Hparse. cbv beta iota.
  rewrite Hform. cbv beta iota. rewrite Hfind. cbv beta iota.
  rewrite N.eqb_refl, Hmime. cbv beta iota.
  apply String.eqb_neq in Hjpeg, Hpng. rewrite Hjpeg, Hpng. reflexivity.
Qed.

Lemma thumbnail_other_type_witness :
  handlerUploadThumbnail Demo.cfg DemoThumbnail.assets Demo.env_ok (DemoThumbnail.fs None)
    DemoThumbnail.request_gif DemoThumbnail.world
  = {| response := Some {| StatusCode := StatusBadRequest;
                           Body := ErrorBody "Unsupported file type" |};
       panicked := false;
       final := DemoThumbnail.world;
       trace := [CallGetVideo 7%N] |}.
Proof.
  apply (thumbnail_other_type_rejected Demo.cfg DemoThumbnail.assets Demo.env_ok
           (DemoThumbnail.fs None) DemoThumbnail.request_gif DemoThumbnail.world
           7%N "Bearer alice" DemoThumbnail.published
           {| FormName := "thumbnail"; PartContentType := "image/gif";
              Content := ["P"%byte; "N"%byte; "G"%byte] |} "image/gif").
  - reflexivity.
  - reflexivity.
  - reflexivity.
  - reflexivity.
  - reflexivity.
  - reflexivity.
  - reflexivity.
  - discriminate.
  - discriminate.
Defined.

(** X19.  A caller who does not own the record is rejected with status 401 once the
    form has been parsed and the record loaded; nothing is created or written. *)
Theorem thumbnail_non_owner_rejected (cfg : apiConfig) (assets : assetsConfig)
    (env : Env) (fs : AssetsEnv) (r : Request) (w : World)
    (videoID userID : UUID) (token : string) (video : Video) (formFile : Part) :
  uuid_Parse env (PathValue_videoID r) = Ok videoID ->
  auth_GetBearerToken env (Header r) = Ok token ->
  auth_ValidateJWT env token (jwtSecret cfg) = Ok userID ->
  ParseMultipartForm r (Z.shiftl 10 20) = None ->
  FormFile r "thumbnail" = Ok formFile ->
  find (fun v => N.eqb (ID v) videoID) (db w) = Some video ->
  UserID video <> userID ->
  handlerUploadThumbnail cfg assets env fs r w
  = {| response := Some {| StatusCode := StatusUnauthorized;
                           Body := ErrorBody "You can't upload a thumbnail for this video" |};
       panicked := false;
       final := w;
       trace := [CallGetVideo videoID] |}.
Proof.
  intros Hid Htoken Hjwt Hparse Hform Hfind Howner.
  unfold handlerUploadThumbnail, run, handlerUploadThumbnail_body.
  cbv beta iota zeta delta
    [mbind mret Handler_bind Handler_ret orFail return_ defer respondWithError
     GetVideo start finish run_deferred log_call fold_left app fst snd negb andb
     world calls written deferred response panicked final trace].
  rewrite Hid, Htoken, Hjwt, Hparse. cbv beta iota.
  rewrite Hform. cbv beta iota. rewrite Hfind. cbv beta iota.
  apply N.eqb_neq in Howner. rewrite Howner. reflexivity.
Qed.

Lemma thumbnail_non_owner_witness :
  handlerUploadThumbnail Demo.cfg DemoThumbnail.assets Demo.env_ok (DemoThumbnail.fs None)
    DemoThumbnail.request_by_bob DemoThumbnail.world
  = {| response := Some {| StatusCode := StatusUnauthorized;
                           Body := ErrorBody "You can't upload a thumbnail for this video" |};
       panicked := false;
       final := DemoThumbnail.world;
       trace := [CallGetVideo 7%N] |}.
Proof.
  apply (thumbnail_non_owner_rejected Demo.cfg DemoThumbnail.assets Demo.env_ok
           (DemoThumbnail.fs None) DemoThumbnail.request_by_bob DemoThumbnail.world
           7%N Demo.bob "Bearer bob" DemoThumbnail.published
           {| FormName := "thumbnail"; PartContentType := "image/png";
              Content := ["P"%byte; "N"%byte; "G"%byte] |}).
  - reflexivity.
  - reflexivity.
  - reflexivity.
  - reflexivity.
  - reflexivity.
  - reflexivity.
  - discriminate.
Defined.

(** X20.  When the record update fails the thumbnail file has been written and is
    not removed: the file holds the bytes of the part, and no record points to
    it. *)
Theorem thumbnail_update_failure_leaves_file (cfg : apiConfig) (assets : assetsConfig)
    (env : Env) (fs : AssetsEnv) (r : Request) (w : World) :
  response (handlerUploadThumbnail cfg assets env fs r w)
  = Some {| StatusCode := StatusInternalServerError;
            Body := ErrorBody "Couldn't update video" |} ->
  exists formFile mediaType,
    FormFile r "thumbnail" = Ok formFile /\
    mime_ParseMediaType env (PartContentType formFile) = Ok mediaType /\
    disk (final (handlerUploadThumbnail cfg assets env fs r w))
      !! filepath_Join fs (assetsRoot assets) (thumbnail_name env mediaType)
    = Some (Content formFile) /\
    db (final (handlerUploadThumbnail cfg assets env fs r w)) = db w.
Proof.
  unfold thumbnail_name. unfold_thumbnail.
  repeat branch; intros H; try discriminate H;
    do 2 eexists;
    repeat (split; [eassumption || reflexivity || apply lookup_insert_eq |]); reflexivity.
Qed.

Lemma thumbnail_update_failure_witness :
  exists formFile mediaType,
    FormFile DemoThumbnail.request "thumbnail" = Ok formFile /\
    mime_ParseMediaType Demo.env_update_fails (PartContentType formFile) = Ok mediaType /\
    disk (final (handlerUploadThumbnail Demo.cfg DemoThumbnail.assets Demo.env_update_fails
                   (DemoThumbnail.fs None) DemoThumbnail.request DemoThumbnail.world))
      !! filepath_Join (DemoThumbnail.fs None) (assetsRoot DemoThumbnail.assets)
           (thumbnail_name Demo.env_update_fails mediaType)
    = Some (Content formFile) /\
    db (final (handlerUploadThumbnail Demo.cfg DemoThumbnail.assets Demo.env_update_fails
                 (DemoThumbnail.fs None) DemoThumbnail.request DemoThumbnail.world))
    = db DemoThumbnail.world.
Proof.
  apply (thumbnail_update_failure_leaves_file Demo.cfg DemoThumbnail.assets
           Demo.env_update_fails (DemoThumbnail.fs None) DemoThumbnail.request
           DemoThumbnail.world).
  vm_compute. reflexivity.
Defined.

(** ** The name of a thumbnail file *)

Lemma url_safe_excludes (c : ascii) (s : string) :
  Base64.url_safe c = false ->
  Forall (fun x => Base64.url_safe x = true) (list_ascii_of_string s) ->
  has_char c s = false.
Proof.
  intros Hc. induction s as [| x s IH]; simpl; [reflexivity |].
  intros H. inversion H as [| ? ? Hx Hs]; subst.
  rewrite (IH Hs), orb_false_r.
  destruct (Ascii.eqb_spec x c) as [-> | _]; [congruence | reflexivity].
Qed.

(** X21.  The name of a thumbnail file is a single path element, whatever type the
    client declared: 43 characters of the URL-safe alphabet, one dot and an
    extension of the table.  It contains no slash, the dot of the extension is
    its only dot, and it is too long to be [.] or [..]; the client's input
    reaches the name through the extension table only. *)
Theorem thumbnail_name_is_one_element (env : Env) (mediaType : string) :
  exists stem,
    thumbnail_name env mediaType = stem +:+ "." +:+ getExtension mediaType /\
    String.length stem = 43%nat /\
    has_char "."%char stem = false /\
    has_char "."%char (getExtension mediaType) = false /\
    has_char "/"%char (thumbnail_name env mediaType) = false /\
    (47 <= String.length (thumbnail_name env mediaType) <= 48)%nat.
Proof.
  exists (Base64.EncodeToString (randomBytes env)).
  pose proof (Base64Facts.EncodeToString_url_safe (randomBytes env)) as Hsafe.
  assert (Hlen : String.length (Base64.EncodeToString (randomBytes env)) = 43%nat)
    by (now rewrite Base64Facts.EncodeToString_length, randomBytes_length).
  assert (Hext : In (getExtension mediaType) ["jpg"; "png"; "gif"; "webp"; "bin"]).
  { unfold getExtension.
    repeat match goal with |- context [if ?b then _ else _] => destruct b end;
      simpl; tauto. }
  unfold thumbnail_name.
  split; [reflexivity |]. split; [exact Hlen |].
  split; [apply url_safe_excludes; [reflexivity | exact Hsafe] |].
  rewrite !has_char_app, !append_length, Hlen.
  rewrite (url_safe_excludes "/"%char _ eq_refl Hsafe).
  simpl in Hext.
  destruct Hext as [<- | [<- | [<- | [<- | [<- | []]]]]]; simpl; repeat split; lia.
Qed.
